(** * UltraThink orchestrator (src/ultrathink-example.py)

    A shallow embedding of [UltraThinkOrchestrator]: the request analyser,
    the four thinking patterns (sequential, parallel, hierarchical, mesh),
    the simulated agent executor and the synthesiser, followed by the
    properties of the orchestration pipeline.

    Conventions of the embedding.
    - A Python [str] is the list of its Unicode code points.  [str.split]
      and [in] are written out; [str.lower] is a parameter of the analyser
      (a lower-casing of Basic Latin and Latin-1 is used to run examples).
    - The [async] methods run on one event loop; they are written in a state
      and exception monad over a [world] that holds the subtask dicts
      (mutable objects behind references), the agent registry, the trace of
      what the program printed and of the executor calls, and the clock.
      The dicts that [analyze_request] builds become objects of the world
      when [execute_ultrathink] hands them to a strategy; nothing changes
      them before.  References given to a strategy are allocated.
    - The only place where several coroutines are in flight is
      [asyncio.gather]; the order in which they complete is a parameter.
    - Python's [int / int] is the float nearest to the exact quotient.  The
      confidence score is kept as that exact quotient, a rational in lowest
      terms, and [> 0.8] is the comparison with 4/5; the two comparisons
      agree on [k / n] as long as [n] is below 10^15. *)

From Stdlib Require Import String Ascii.
From Stdlib Require Import QArith Qreduction Permutation.
From stdpp Require Import base option list gmap.

Local Open Scope nat_scope.

(** ** Python strings *)

Module PyStr.

(** A code point. *)
Definition char : Type := N.

Definition str : Type := list char.

(** An ASCII literal, one code point per character. *)
Fixpoint lit (s : String.string) : str :=
  match s with
  | String.EmptyString => []
  | String.String a s' => Ascii.N_of_ascii a :: lit s'
  end.

Arguments lit s%_string.

(** [str.isspace] on one code point: the characters CPython's
    [_PyUnicode_IsWhitespace] accepts. *)
Definition isspace (c : char) : bool :=
  ((9 <=? c) && (c <=? 13) || (28 <=? c) && (c <=? 32)
   || (c =? 133) || (c =? 160) || (c =? 5760)
   || (8192 <=? c) && (c <=? 8202)
   || (c =? 8232) || (c =? 8233) || (c =? 8239) || (c =? 8287)
   || (c =? 12288))%N.

(** [s.split()] with no argument: the maximal runs of non-whitespace
    characters, in order.  [cur] is the run being read, reversed. *)
Fixpoint split_from (cur : str) (s : str) : list str :=
  match s with
  | [] => match cur with [] => [] | _ => [rev cur] end
  | c :: s' =>
      if isspace c
      then match cur with
           | [] => split_from [] s'
           | _ => rev cur :: split_from [] s'
           end
      else split_from (c :: cur) s'
  end.

Definition split (s : str) : list str := split_from [] s.

(** [s.startswith(p)]. *)
Fixpoint startswith (p s : str) : bool :=
  match p, s with
  | [], _ => true
  | _ :: _, [] => false
  | a :: p', b :: s' => (a =? b)%N && startswith p' s'
  end.

(** [p in s]: [p] occurs in [s] as a contiguous run. *)
Fixpoint contains (p s : str) : bool :=
  startswith p s ||
  match s with
  | [] => false
  | _ :: s' => contains p s'
  end.

(** [a == b] on strings. *)
Definition eqb (a b : str) : bool := bool_decide (a = b).

(** A lower-casing that covers Basic Latin and the Latin-1 Supplement,
    the blocks the keywords of the analyser are written in.  Used to run
    the model on concrete requests; the development is otherwise
    parametric in [str.lower]. *)
Definition lower_latin1_char (c : char) : char :=
  (if (65 <=? c) && (c <=? 90) then c + 32
   else if (192 <=? c) && (c <=? 222) && negb (c =? 215) then c + 32
   else c)%N.

Definition lower_latin1 (s : str) : str := map lower_latin1_char s.

(** The number of words of a request as the specification counts them:
    the positions where a non-whitespace character starts the string or
    follows a whitespace character. *)
Fixpoint word_starts (prev_space : bool) (s : str) : nat :=
  match s with
  | [] => 0
  | c :: s' =>
      (if prev_space && negb (isspace c) then 1 else 0)
      + word_starts (isspace c) s'
  end.

Definition word_count (s : str) : nat := word_starts true s.

End PyStr.

Import PyStr.

(** ** Data model: the dicts the orchestrator passes around *)

(** An entry of [artifacts]. *)
Record Artifact := { type : str; content : str }.

(** The dict [simulate_agent_execution] returns.  [artifacts] is read with
    [result.get("artifacts", [])], so the key may be absent. *)
Module Result.
Record t := {
  agent : str;
  task : str;
  result : str;
  execution_time : Q;
  status : str;
  artifacts : option (list Artifact)
}.
End Result.

(** A subtask dict: [agent], [task] and, once a strategy has set it,
    [previous_result]. *)
Module Subtask.
Record t := {
  agent : str;
  task : str;
  previous_result : option Result.t
}.

Definition make (a k : str) : t :=
  {| agent := a; task := k; previous_result := None |}.
End Subtask.

Global Instance subtask_inhabited : Inhabited Subtask.t :=
  populate (Subtask.make [] []).

(** The card [register_agent] stores, as [_create_agent_card] builds it. *)
Record AgentCard := {
  name : str;
  description : str;
  skills : list str
}.

(** The dict [analyze_request] returns. *)
Record Analysis := {
  request : str;
  complexity : nat;
  required_agents : list str;
  thinking_pattern : str;
  subtasks : list Subtask.t
}.

Record Insight := {
  source : str;
  insight : str;
  insight_artifacts : list Artifact
}.

(** The dict [synthesize_results] returns. *)
Record Synthesis := {
  summary : str;
  key_insights : list Insight;
  recommendations : list str;
  confidence_score : Q
}.

(** The dict [execute_ultrathink] returns. *)
Record Outcome := {
  out_request : str;
  out_analysis : Analysis;
  out_results : list Result.t;
  out_synthesis : Synthesis;
  out_timestamp : str
}.

(** ** The world the coroutines run in *)

(** A subtask dict is a mutable object; strategies receive references. *)
Definition loc : Type := nat.

(** What the program prints, one constructor per [print] of the
    orchestrator, and the calls of the agent executor ([Exec l s]: the
    executor ran on the object [l], whose contents were [s] at that time). *)
Inductive event :=
  | PrintRegistered (agent_name : str)
  | PrintStart (user_request : str)
  | PrintAnalysis (pattern : str) (n_agents : nat)
  | PrintSequential
  | PrintSequentialStep (agent task : str)
  | PrintParallel
  | PrintParallelStart (agent task : str)
  | PrintHierarchical
  | PrintMainAgent (agent : str)
  | PrintMesh
  | PrintMeshStep (agent : str)
  | PrintSynthesis
  | Exec (subtask : loc) (seen : Subtask.t).

Record world := {
  heap : gmap loc Subtask.t;
  agents_registry : gmap str AgentCard;
  trace : list event;
  now : str
}.

(** The exceptions the orchestrator can raise on well-typed input. *)
Inductive exn := ZeroDivisionError | IndexError.

(** A coroutine: from a world to the world it leaves and either the
    exception it raised or the value it returned. *)
Definition M (A : Type) : Type := world -> world * (exn + A).

Global Instance M_ret : MRet M := fun A x w => (w, inr x).

Global Instance M_bind : MBind M := fun A B f m w =>
  match m w with
  | (w', inr x) => f x w'
  | (w', inl e) => (w', inl e)
  end.

Definition raise {A} (e : exn) : M A := fun w => (w, inl e).

(** The world after more events went to the trace. *)
Definition logged (w : world) (es : list event) : world :=
  {| heap := heap w; agents_registry := agents_registry w;
     trace := trace w ++ es; now := now w |}.

Definition emit (e : event) : M unit := fun w => (logged w [e], inr tt).

(** Reading the dict behind a reference. *)
Definition deref (l : loc) : M Subtask.t := fun w => (w, inr (heap w !!! l)).

(** [subtask["previous_result"] = r] *)
Definition set_previous_result (l : loc) (r : Result.t) : M unit := fun w =>
  ({| heap := alter (fun s => {| Subtask.agent := Subtask.agent s;
                                 Subtask.task := Subtask.task s;
                                 Subtask.previous_result := Some r |}) l (heap w);
      agents_registry := agents_registry w;
      trace := trace w; now := now w |}, inr tt).

(** A new dict object. *)
Definition alloc (s : Subtask.t) : M loc := fun w =>
  let l := fresh (dom (heap w)) in
  ({| heap := <[l := s]> (heap w); agents_registry := agents_registry w;
      trace := trace w; now := now w |}, inr l).

Fixpoint alloc_all (ss : list Subtask.t) : M (list loc) :=
  match ss with
  | [] => mret []
  | s :: ss' => l ← alloc s; ls ← alloc_all ss'; mret (l :: ls)
  end.

(** The contents of the dicts behind a list of references. *)
Definition snapshot (ls : list loc) : M (list Subtask.t) := fun w =>
  (w, inr (map (fun l => heap w !!! l) ls)).

(** [datetime.now().isoformat()] *)
Definition isoformat_now : M str := fun w => (w, inr (now w)).

(** ** Text constants of the source (non-ASCII letters by code point) *)

Definition kw_analise : str := lit "an" ++ [225%N] ++ lit "lise".
Definition kw_tendencias : str := lit "tend" ++ [234%N] ++ lit "ncias".
Definition task_trending : str := lit "Buscar tend" ++ [234%N] ++ lit "ncias atuais".
Definition task_analyzer : str := lit "Analisar dados quantitativos".
Definition task_synthesis : str := lit "Sintetizar insights".
Definition summary_text : str :=
  lit "An" ++ [225%N] ++ lit "lise completa realizada com sucesso".
Definition recommend_proceed : str :=
  lit "Alta confian" ++ [231%N] ++ lit "a nos resultados - prosseguir com implementa"
  ++ [231%N; 227%N] ++ lit "o".
Definition recommend_more_analysis : str :=
  lit "Confian" ++ [231%N] ++ lit "a moderada - considerar an" ++ [225%N]
  ++ lit "lise adicional".
Definition completed : str := lit "completed".

(** [a / b] on two ints: the quotient, or [ZeroDivisionError]. *)
Definition true_div (a b : nat) : M Q :=
  match b with
  | 0 => raise ZeroDivisionError
  | S _ => mret (Qred (Z.of_nat a # Pos.of_nat b))
  end.

(** [x > y] on floats. *)
Definition Qgtb (x y : Q) : bool := negb (Qle_bool x y).

(** ** The orchestrator *)

Section Orchestrator.

(** [str.lower], Python's Unicode lower-casing. *)
Variable lower : str -> str.

(** The event loop: [completion_order n] is the order in which [n]
    executions launched together by [asyncio.gather] complete, as
    indices into the launch order. *)
Variable completion_order : nat -> list nat.

Definition register_agent (agent_card : AgentCard) : M unit := fun w =>
  emit (PrintRegistered (name agent_card))
    {| heap := heap w;
       agents_registry := <[name agent_card := agent_card]> (agents_registry w);
       trace := trace w; now := now w |}.

Definition _calculate_complexity (request : str) : nat :=
  let word_count := length (split request) in
  if word_count <? 10 then 3
  else if word_count <? 30 then 5
  else if word_count <? 50 then 7
  else 9.

Definition analyze_request (user_request : str) : M Analysis :=
  let analysis :=
    {| request := user_request;
       complexity := _calculate_complexity user_request;
       required_agents := [];
       thinking_pattern := lit "sequential";
       subtasks := [] |} in
  if contains kw_analise (lower user_request)
     && contains kw_tendencias (lower user_request)
  then mret
    {| request := request analysis;
       complexity := complexity analysis;
       required_agents :=
         [lit "TrendingAgent"; lit "AnalyzerAgent"; lit "SynthesisAgent"];
       thinking_pattern := lit "parallel";
       subtasks :=
         [Subtask.make (lit "TrendingAgent") task_trending;
          Subtask.make (lit "AnalyzerAgent") task_analyzer;
          Subtask.make (lit "SynthesisAgent") task_synthesis] |}
  else mret analysis.

(** The agent executor.  After the simulated delay it reads the dict it
    was given and always reports [completed]. *)
Definition agent_result (s : Subtask.t) : Result.t :=
  {| Result.agent := Subtask.agent s;
     Result.task := Subtask.task s;
     Result.result :=
       lit "Resultado simulado de " ++ Subtask.agent s ++ lit " para '"
       ++ Subtask.task s ++ lit "'";
     Result.execution_time := 1 # 2;
     Result.status := completed;
     Result.artifacts :=
       Some [{| type := lit "text";
                content := lit "An" ++ [225%N]
                           ++ lit "lise detalhada realizada por "
                           ++ Subtask.agent s |}] |}.

Definition simulate_agent_execution (subtask : loc) : M Result.t :=
  s ← deref subtask;
  emit (Exec subtask s);;
  mret (agent_result s).

(** [results[-1]] guarded by [if results:]. *)
Fixpoint sequential_loop (subtasks : list loc) (results : list Result.t)
  : M (list Result.t) :=
  match subtasks with
  | [] => mret results
  | subtask :: rest =>
      s ← deref subtask;
      emit (PrintSequentialStep (Subtask.agent s) (Subtask.task s));;
      result ← simulate_agent_execution subtask;
      let results := results ++ [result] in
      match last results with
      | Some r => set_previous_result subtask r
      | None => mret tt
      end;;
      sequential_loop rest results
  end.

Definition sequential_thinking (subtasks : list loc) : M (list Result.t) :=
  emit PrintSequential;;
  sequential_loop subtasks [].

(** [asyncio.gather]: every awaitable gets a slot; the executions finish
    in the order the event loop decides, each result goes to the slot of
    its awaitable, and the slots are returned in launch order. *)
Fixpoint gather_run {A} (tasks : list (M A)) (order : list nat)
    (slots : list (option A)) : M (list (option A)) :=
  match order with
  | [] => mret slots
  | i :: order' =>
      match tasks !! i with
      | Some t => r ← t; gather_run tasks order' (<[i := Some r]> slots)
      | None => gather_run tasks order' slots
      end
  end.

Definition gather {A} (tasks : list (M A)) : M (list A) :=
  slots ← gather_run tasks (completion_order (length tasks))
                     (replicate (length tasks) None);
  mret (omap id slots).

Fixpoint parallel_launch (subtasks : list loc) (tasks : list (M Result.t))
  : M (list (M Result.t)) :=
  match subtasks with
  | [] => mret tasks
  | subtask :: rest =>
      s ← deref subtask;
      emit (PrintParallelStart (Subtask.agent s) (Subtask.task s));;
      let task := simulate_agent_execution subtask in
      parallel_launch rest (tasks ++ [task])
  end.

Definition parallel_thinking (subtasks : list loc) : M (list Result.t) :=
  emit PrintParallel;;
  tasks ← parallel_launch subtasks [];
  gather tasks.

Definition hierarchical_thinking (subtasks : list loc) : M (list Result.t) :=
  emit PrintHierarchical;;
  match subtasks with
  | [] => raise IndexError
  | main_agent :: sub_agents =>
      s ← deref main_agent;
      emit (PrintMainAgent (Subtask.agent s));;
      main_result ← simulate_agent_execution main_agent;
      sub_results ← parallel_thinking sub_agents;
      mret ([main_result] ++ sub_results)
  end.

(** The queues of the mesh, by agent name. *)
Fixpoint mesh_channels (subtasks : list loc)
    (communication_channels : gmap str (list Result.t))
  : M (gmap str (list Result.t)) :=
  match subtasks with
  | [] => mret communication_channels
  | subtask :: rest =>
      s ← deref subtask;
      mesh_channels rest (<[Subtask.agent s := []]> communication_channels)
  end.

(** [for other_agent, channel in communication_channels.items()]: each
    pass touches only its own queue, so the loop is a map over the
    entries. *)
Definition mesh_share (agent_name : str) (result : Result.t)
    (communication_channels : gmap str (list Result.t))
  : gmap str (list Result.t) :=
  map_imap (fun other_agent channel =>
              Some (if bool_decide (other_agent ≠ agent_name)
                    then channel ++ [result] else channel))
           communication_channels.

Fixpoint mesh_loop (subtasks : list loc)
    (communication_channels : gmap str (list Result.t))
    (results : list Result.t)
  : M (list Result.t * gmap str (list Result.t)) :=
  match subtasks with
  | [] => mret (results, communication_channels)
  | subtask :: rest =>
      s ← deref subtask;
      emit (PrintMeshStep (Subtask.agent s));;
      result ← simulate_agent_execution subtask;
      s' ← deref subtask;
      mesh_loop rest
        (mesh_share (Subtask.agent s') result communication_channels)
        (results ++ [result])
  end.

(** [mesh_thinking] together with the queues it leaves behind. *)
Definition mesh_run (subtasks : list loc)
  : M (list Result.t * gmap str (list Result.t)) :=
  emit PrintMesh;;
  communication_channels ← mesh_channels subtasks ∅;
  mesh_loop subtasks communication_channels [].

Definition mesh_thinking (subtasks : list loc) : M (list Result.t) :=
  run ← mesh_run subtasks;
  mret (fst run).

Definition synthesize_results (results : list Result.t) : M Synthesis :=
  emit PrintSynthesis;;
  let key_insights :=
    map (fun r => {| source := Result.agent r;
                     insight := Result.result r;
                     insight_artifacts := default [] (Result.artifacts r) |})
        results in
  let successful_agents :=
    length (filter (fun r => Result.status r = completed) results) in
  confidence_score ← true_div successful_agents (length results);
  let recommendations :=
    if Qgtb confidence_score (8 # 10)
    then [recommend_proceed]
    else [recommend_more_analysis] in
  mret {| summary := summary_text;
          key_insights := key_insights;
          recommendations := recommendations;
          confidence_score := confidence_score |}.

Definition thinking_patterns : gmap str (list loc -> M (list Result.t)) :=
  <[lit "sequential" := sequential_thinking]>
  (<[lit "parallel" := parallel_thinking]>
  (<[lit "hierarchical" := hierarchical_thinking]>
  (<[lit "mesh" := mesh_thinking]> ∅))).

(** The subtask dicts of the analysis are the objects the strategy works
    on; the analysis in the outcome shows them as the strategy left them. *)
Definition execute_ultrathink (user_request : str) : M Outcome :=
  emit (PrintStart user_request);;
  analysis ← analyze_request user_request;
  emit (PrintAnalysis (thinking_pattern analysis)
                      (length (required_agents analysis)));;
  let thinking_function :=
    default sequential_thinking
            (thinking_patterns !! thinking_pattern analysis) in
  objects ← alloc_all (subtasks analysis);
  results ← thinking_function objects;
  final_result ← synthesize_results results;
  timestamp ← isoformat_now;
  left_subtasks ← snapshot objects;
  mret {| out_request := user_request;
          out_analysis :=
            {| request := request analysis;
               complexity := complexity analysis;
               required_agents := required_agents analysis;
               thinking_pattern := thinking_pattern analysis;
               subtasks := left_subtasks |};
          out_results := results;
          out_synthesis := final_result;
          out_timestamp := timestamp |}.

End Orchestrator.

(** ** What the strategies and the synthesiser compute *)

(** What a strategy returns on the heap [h]: the executor's result for
    each subtask, in the order of the list. *)
Definition results_of (h : gmap loc Subtask.t) (subtasks : list loc)
  : list Result.t :=
  map (fun l => agent_result (h !!! l)) subtasks.

(** The [print]s of the launch loop of [parallel_thinking]. *)
Definition start_events (h : gmap loc Subtask.t) (ls : list loc) : list event :=
  map (fun l => PrintParallelStart (Subtask.agent (h !!! l))
                                   (Subtask.task (h !!! l))) ls.

(** The executor calls, in the order in which they complete. *)
Definition exec_events (h : gmap loc Subtask.t) (ls : list loc)
    (order : list nat) : list event :=
  omap (fun i => (fun l => Exec l (h !!! l)) <$> ls !! i) order.

(** The slots after the executions named by [order] have completed. *)
Definition fill (h : gmap loc Subtask.t) (ls : list loc)
    (slots : list (option Result.t)) (order : list nat)
  : list (option Result.t) :=
  foldl (fun sl i =>
           match ls !! i with
           | Some l => <[i := Some (agent_result (h !!! l))]> sl
           | None => sl
           end) slots order.

(** The [print]s and executor calls of the mesh loop. *)
Definition mesh_events (h : gmap loc Subtask.t) (ls : list loc) : list event :=
  flat_map (fun l => [PrintMeshStep (Subtask.agent (h !!! l)); Exec l (h !!! l)]) ls.

(** The names of the agents of a run. *)
Definition agents_of (h : gmap loc Subtask.t) (ls : list loc) : list str :=
  map (fun l => Subtask.agent (h !!! l)) ls.

(** The number of results whose status is [completed]. *)
Definition successful (results : list Result.t) : nat :=
  length (filter (fun r => Result.status r = completed) results).

Definition insights_of (results : list Result.t) : list Insight :=
  map (fun r => {| source := Result.agent r;
                   insight := Result.result r;
                   insight_artifacts := default [] (Result.artifacts r) |})
      results.

(** The quotient [a / b] of two counts. *)
Definition ratio (a b : nat) : Q := Qred (Z.of_nat a # Pos.of_nat b).

Definition recommend (score : Q) : list str :=
  if Qgtb score (8 # 10) then [recommend_proceed] else [recommend_more_analysis].

(** The two answers of [analyze_request]. *)
Definition default_analysis (user_request : str) : Analysis :=
  {| request := user_request;
     complexity := _calculate_complexity user_request;
     required_agents := [];
     thinking_pattern := lit "sequential";
     subtasks := [] |}.

Definition trend_analysis (user_request : str) : Analysis :=
  {| request := user_request;
     complexity := _calculate_complexity user_request;
     required_agents :=
       [lit "TrendingAgent"; lit "AnalyzerAgent"; lit "SynthesisAgent"];
     thinking_pattern := lit "parallel";
     subtasks :=
       [Subtask.make (lit "TrendingAgent") task_trending;
        Subtask.make (lit "AnalyzerAgent") task_analyzer;
        Subtask.make (lit "SynthesisAgent") task_synthesis] |}.

(** The [print]s and executor calls of the sequential loop when every
    executor call sees the dict as [h] has it. *)
Definition sequential_events (h : gmap loc Subtask.t) (ls : list loc)
  : list event :=
  flat_map (fun l => [PrintSequentialStep (Subtask.agent (h !!! l))
                                          (Subtask.task (h !!! l));
                      Exec l (h !!! l)]) ls.

(** The value a run returned, if it returned. *)
Definition returned {A} (r : world * (exn + A)) : option A :=
  match snd r with
  | inr x => Some x
  | inl _ => None
  end.

(** ** Concrete subtasks, worlds and schedules *)

Definition trending : Subtask.t := Subtask.make (lit "TrendingAgent") task_trending.
Definition analyzer : Subtask.t := Subtask.make (lit "AnalyzerAgent") task_analyzer.
Definition synthesizer : Subtask.t :=
  Subtask.make (lit "SynthesisAgent") task_synthesis.

(** A fresh orchestrator. *)
Definition empty_world : world :=
  {| heap := ∅; agents_registry := ∅; trace := [];
     now := lit "2025-01-01T00:00:00" |}.

(** Three distinct subtask dicts, at the references 0, 1 and 2. *)
Definition three_subtasks : world :=
  {| heap := <[0 := trending]> (<[1 := analyzer]> (<[2 := synthesizer]> ∅));
     agents_registry := ∅; trace := [];
     now := lit "2025-01-01T00:00:00" |}.

(** Executions that complete in the reverse of the order they were
    launched in: the later the subtask, the shorter its latency. *)
Definition reverse_completion (n : nat) : list nat := rev (seq 0 n).

(** A request that names both keywords, in capitals. *)
Definition trend_request : str :=
  lit "AN" ++ [193%N] ++ lit "LISE das TEND" ++ [202%N] ++ lit "NCIAS de IA".

(** The request of [main]: twenty words, both keywords. *)
Definition main_request : str :=
  lit "Fa" ++ [231%N] ++ lit "a uma an" ++ [225%N]
  ++ lit "lise profunda das tend" ++ [234%N]
  ++ lit "ncias atuais em intelig" ++ [234%N]
  ++ lit "ncia artificial, incluindo dados quantitativos sobre ado"
  ++ [231%N; 227%N]
  ++ lit "o, investimentos e impacto no mercado".

(** Two subtasks of one agent and one of another. *)
Definition shared_agent : world :=
  {| heap := <[0 := trending]>
             (<[1 := Subtask.make (lit "TrendingAgent") task_analyzer]>
             (<[2 := synthesizer]> ∅));
     agents_registry := ∅; trace := [];
     now := lit "2025-01-01T00:00:00" |}.

(** One failed result among three. *)
Definition failed_result : Result.t :=
  {| Result.agent := lit "AnalyzerAgent";
     Result.task := task_analyzer;
     Result.result := lit "timeout";
     Result.execution_time := 1 # 2;
     Result.status := lit "failed";
     Result.artifacts := None |}.

(** ** The rest of the module: registration loops and agent cards *)

(** A sequence of [register_agent] calls, as the loop of [main] makes. *)
Fixpoint register_all (agent_cards : list AgentCard) : M unit :=
  match agent_cards with
  | [] => mret tt
  | agent_card :: rest => register_agent agent_card;; register_all rest
  end.

(** The last card of a list that carries a given name. *)
Definition last_named (n : str) (agent_cards : list AgentCard)
  : option AgentCard :=
  last (filter (fun c => name c = n) agent_cards).

(** [s.replace(old, new)] for one-character [old] and [new]. *)
Definition replace_char (old new : char) (s : str) : str :=
  map (fun c => if (c =? old)%N then new else c) s.

(** [UltraThinkAgent]: the constructor and [_create_agent_card]. *)
Module Agent.

Record Skill := { id : str; skill_name : str; skill_description : str }.

Record Capabilities := {
  streaming : bool;
  multi_turn : bool;
  context_retention : bool
}.

Record Card := {
  card_name : str;
  card_description : str;
  version : str;
  capabilities : Capabilities;
  card_skills : list Skill
}.

Record t := {
  name : str;
  description : str;
  skills : list str;
  agent_card : Card
}.

Section Cards.

Variable lower : str -> str.

Definition _create_agent_card (name description : str) (skills : list str)
  : Card :=
  {| card_name := name;
     card_description := description;
     version := lit "1.0";
     capabilities := {| streaming := true; multi_turn := true;
                        context_retention := true |};
     card_skills :=
       map (fun skill =>
              {| id := replace_char 32%N 95%N (lower skill);
                 skill_name := skill;
                 skill_description := lit "Capacidade de " ++ skill |})
           skills |}.

(** [UltraThinkAgent(name, description, skills)]. *)
Definition __init__ (name description : str) (skills : list str) : t :=
  {| name := name; description := description; skills := skills;
     agent_card := _create_agent_card name description skills |}.

End Cards.

End Agent.

(** ** What a run leaves alone *)

(** Every subtask dict of [w'] has the agent and the task it has in [w]. *)
Definition same_duties (w w' : world) : Prop :=
  forall l : loc,
    Subtask.agent (heap w' !!! l) = Subtask.agent (heap w !!! l)
    /\ Subtask.task (heap w' !!! l) = Subtask.task (heap w !!! l).

(** An event of a pass of the sequential loop, of the hierarchical strategy
    or of the mesh strategy. *)
Definition unreached_event (e : event) : bool :=
  match e with
  | PrintSequentialStep _ _ | PrintHierarchical | PrintMainAgent _
  | PrintMesh | PrintMeshStep _ => true
  | _ => false
  end.

(** The condition of [analyze_request]: both keywords occur in the
    lower-cased request. *)
Definition names_trend_analysis (lower : str -> str) (user_request : str)
  : bool :=
  contains kw_analise (lower user_request)
  && contains kw_tendencias (lower user_request).

(** The synthesis of results that are all completed. *)
Definition full_confidence (results : list Result.t) : Synthesis :=
  {| summary := summary_text;
     key_insights := insights_of results;
     recommendations := [recommend_proceed];
     confidence_score := 1 |}.

(** * Properties *)

(** ** Words of a request *)

Example split_say_hello :
  split (lit "  Say   hello ") = [lit "Say"; lit "hello"].
Proof. reflexivity. Qed.

Lemma split_from_length cur s :
  length (split_from cur s) =
  word_starts (match cur with [] => true | _ => false end) s
  + match cur with [] => 0 | _ => 1 end.
Proof.
  revert cur. induction s as [|c s IH]; intros cur.
  - destruct cur; reflexivity.
  - cbn [split_from word_starts]. destruct (isspace c) eqn:Hc.
    + destruct cur as [|x cur]; cbn [length]; rewrite IH; cbn; lia.
    + rewrite IH. destruct cur as [|x cur]; cbn; lia.
Qed.

(** The length of [request.split()] is the number of words. *)
Lemma split_length_word_count s : length (split s) = word_count s.
Proof.
  unfold split, word_count. rewrite split_from_length. lia.
Qed.

(** ** Running coroutines: equations of the monad *)

Lemma bind_run {A B} (m : M A) (f : A -> M B) w :
  (m ≫= f) w =
  match m w with
  | (w', inr x) => f x w'
  | (w', inl e) => (w', inl e)
  end.
Proof. reflexivity. Qed.

Lemma bind_returns {A B} (m : M A) (f : A -> M B) w w' x :
  m w = (w', inr x) -> (m ≫= f) w = f x w'.
Proof. intros H. rewrite bind_run, H. reflexivity. Qed.

Lemma bind_raises {A B} (m : M A) (f : A -> M B) w w' e :
  m w = (w', inl e) -> (m ≫= f) w = (w', inl e).
Proof. intros H. rewrite bind_run, H. reflexivity. Qed.

Lemma ret_run {A} (x : A) w : (mret x : M A) w = (w, inr x).
Proof. reflexivity. Qed.

Lemma emit_run e w : emit e w = (logged w [e], inr tt).
Proof. reflexivity. Qed.

Lemma deref_run l w : deref l w = (w, inr (heap w !!! l)).
Proof. reflexivity. Qed.

Lemma logged_nil w : logged w [] = w.
Proof. destruct w. unfold logged. cbn. by rewrite app_nil_r. Qed.

Lemma logged_logged w es es' : logged (logged w es) es' = logged w (es ++ es').
Proof. unfold logged. cbn. by rewrite app_assoc. Qed.

Lemma heap_logged w es : heap (logged w es) = heap w.
Proof. reflexivity. Qed.

Lemma trace_logged w es : trace (logged w es) = trace w ++ es.
Proof. reflexivity. Qed.

Create Rewrite HintDb run.

#[local] Hint Rewrite @bind_run @ret_run emit_run deref_run
  logged_logged heap_logged : run.

(** One step of a coroutine: unfold a bind and run its head. *)
Ltac run := repeat (autorewrite with run; cbn beta iota).

(** ** The agent executor *)

Lemma simulate_agent_execution_run l w :
  simulate_agent_execution l w =
  (logged w [Exec l (heap w !!! l)], inr (agent_result (heap w !!! l))).
Proof. unfold simulate_agent_execution. run. reflexivity. Qed.

#[local] Hint Rewrite simulate_agent_execution_run : run.

Lemma agent_result_status s : Result.status (agent_result s) = completed.
Proof. reflexivity. Qed.

Lemma agent_result_agent s : Result.agent (agent_result s) = Subtask.agent s.
Proof. reflexivity. Qed.

(** The executor looks at the agent and the task of a subtask only. *)
Lemma agent_result_ext s s' :
  Subtask.agent s = Subtask.agent s' -> Subtask.task s = Subtask.task s' ->
  agent_result s = agent_result s'.
Proof. unfold agent_result. by intros -> ->. Qed.

Lemma results_of_length h ls : length (results_of h ls) = length ls.
Proof. apply length_map. Qed.

Lemma results_of_completed h ls :
  Forall (fun r => Result.status r = completed) (results_of h ls).
Proof. unfold results_of. induction ls; constructor; auto. Qed.

(** ** [asyncio.gather] over executor calls *)

Lemma parallel_launch_run ls tasks w :
  parallel_launch ls tasks w =
  (logged w (start_events (heap w) ls),
   inr (tasks ++ map simulate_agent_execution ls)).
Proof.
  revert tasks w. induction ls as [|l ls IH]; intros tasks w.
  - cbn. by rewrite logged_nil, app_nil_r.
  - cbn [parallel_launch]. run. rewrite IH. run.
    by rewrite <- app_assoc.
Qed.

Lemma gather_run_executor ls order slots w :
  gather_run (map simulate_agent_execution ls) order slots w =
  (logged w (exec_events (heap w) ls order), inr (fill (heap w) ls slots order)).
Proof.
  revert slots w. induction order as [|i order IH]; intros slots w.
  - cbn. by rewrite logged_nil.
  - cbn [gather_run]. unfold exec_events, fill. cbn [omap list_omap foldl].
    change (map simulate_agent_execution ls) with (simulate_agent_execution <$> ls).
    rewrite list_lookup_fmap.
    destruct (ls !! i) as [l|] eqn:Hl; cbn.
    + run. rewrite IH. run. reflexivity.
    + apply IH.
Qed.

Lemma fill_length h ls slots order :
  length (fill h ls slots order) = length slots.
Proof.
  revert slots. induction order as [|i order IH]; intros slots; [done|].
  unfold fill in *. cbn [foldl]. rewrite IH.
  destruct (ls !! i); [apply length_insert | done].
Qed.

Lemma fill_lookup h ls slots order i :
  length slots = length ls ->
  fill h ls slots order !! i =
  if decide (i ∈ order)
  then (fun l => Some (agent_result (h !!! l))) <$> ls !! i
  else slots !! i.
Proof.
  revert slots. induction order as [|j order IH]; intros slots Hlen.
  - cbn. rewrite decide_False; [done | apply not_elem_of_nil].
  - change (fill h ls slots (j :: order))
      with (fill h ls (match ls !! j with
                       | Some l => <[j := Some (agent_result (h !!! l))]> slots
                       | None => slots
                       end) order).
    rewrite IH by (destruct (ls !! j); [rewrite length_insert|]; done).
    destruct (decide (i ∈ order)) as [Hin|Hin].
    + rewrite decide_True; [done | by apply list_elem_of_further].
    + destruct (decide (j = i)) as [->|Hne].
      * rewrite decide_True by apply list_elem_of_here.
        destruct (ls !! i) as [l|] eqn:Hl; cbn.
        -- apply list_lookup_insert_eq. rewrite Hlen.
           by apply lookup_lt_Some in Hl.
        -- apply lookup_ge_None. rewrite Hlen. by apply lookup_ge_None.
      * rewrite decide_False by (intros [?|?]%elem_of_cons; congruence).
        destruct (ls !! j); [by apply list_lookup_insert_ne | done].
Qed.

(** Once every execution has completed, slot [i] holds the result of
    subtask [i], whatever the order of completion was. *)
Lemma fill_complete h ls order :
  order ≡ₚ seq 0 (length ls) ->
  fill h ls (replicate (length ls) None) order =
  map (fun l => Some (agent_result (h !!! l))) ls.
Proof.
  intros Hperm. apply list_eq. intros i.
  rewrite fill_lookup by apply length_replicate.
  change (map ?f ls) with (f <$> ls). rewrite list_lookup_fmap.
  destruct (decide (i ∈ order)) as [Hin|Hin]; [done|].
  rewrite Hperm, elem_of_seq in Hin.
  assert (length ls <= i) as Hge by lia.
  rewrite (proj1 (lookup_replicate_None _ _ _)) by done.
  by rewrite (proj2 (lookup_ge_None _ _) Hge).
Qed.

Lemma omap_id_Some {A B} (f : A -> B) (l : list A) :
  omap id (map (fun x => Some (f x)) l) = map f l.
Proof. induction l as [|x l IH]; cbn; [done | by rewrite IH]. Qed.

(** ** The parallel strategy *)

Lemma gather_executor completion_order ls w :
  completion_order (length ls) ≡ₚ seq 0 (length ls) ->
  gather completion_order (map simulate_agent_execution ls) w =
  (logged w (exec_events (heap w) ls (completion_order (length ls))),
   inr (results_of (heap w) ls)).
Proof.
  intros Hperm. unfold gather. rewrite length_map. run.
  rewrite gather_run_executor. run.
  rewrite fill_complete by done. by rewrite omap_id_Some.
Qed.

Lemma parallel_thinking_run completion_order ls w :
  completion_order (length ls) ≡ₚ seq 0 (length ls) ->
  parallel_thinking completion_order ls w =
  (logged w (PrintParallel :: start_events (heap w) ls
             ++ exec_events (heap w) ls (completion_order (length ls))),
   inr (results_of (heap w) ls)).
Proof.
  intros Hperm. unfold parallel_thinking. run. rewrite parallel_launch_run. run.
  cbn [app]. rewrite gather_executor by done. run. reflexivity.
Qed.

(** C4. Under the Parallel strategy the results come back one per subtask
    and in the order of the subtasks: the i-th result is the executor's
    result for the i-th subtask, for every order in which the launched
    executions complete (the trace shows them completing in that order). *)
Theorem parallel_thinking_order completion_order (subtasks : list loc) w :
  completion_order (length subtasks) ≡ₚ seq 0 (length subtasks) ->
  exists results,
    parallel_thinking completion_order subtasks w =
      (logged w (PrintParallel :: start_events (heap w) subtasks
                 ++ exec_events (heap w) subtasks
                      (completion_order (length subtasks))),
       inr results)
    /\ length results = length subtasks
    /\ forall i, results !! i =
                 (fun l => agent_result (heap w !!! l)) <$> subtasks !! i.
Proof.
  intros Hperm. exists (results_of (heap w) subtasks). split; [|split].
  - by apply parallel_thinking_run.
  - apply results_of_length.
  - intros i. unfold results_of.
    change (map ?f subtasks) with (f <$> subtasks). apply list_lookup_fmap.
Qed.

(** ** The hierarchical strategy *)

Lemma hierarchical_thinking_cons completion_order l ls w :
  completion_order (length ls) ≡ₚ seq 0 (length ls) ->
  hierarchical_thinking completion_order (l :: ls) w =
  (logged w ([PrintHierarchical;
              PrintMainAgent (Subtask.agent (heap w !!! l));
              Exec l (heap w !!! l);
              PrintParallel] ++ start_events (heap w) ls
             ++ exec_events (heap w) ls (completion_order (length ls))),
   inr (results_of (heap w) (l :: ls))).
Proof.
  intros Hperm. unfold hierarchical_thinking. run.
  rewrite parallel_thinking_run by done. run. reflexivity.
Qed.

(** C5. On a non-empty list the Hierarchical strategy runs the first
    subtask alone and first, then does exactly what the Parallel strategy
    does on the remaining subtasks from the same dicts (the primary's result
    reaches none of their inputs), and returns the primary's result in front
    of the Parallel results: one result per subtask. *)
Theorem hierarchical_thinking_parallel completion_order
    (main_agent : loc) (sub_agents : list loc) w :
  completion_order (length sub_agents) ≡ₚ seq 0 (length sub_agents) ->
  exists sub_events sub_results,
    parallel_thinking completion_order sub_agents w =
      (logged w sub_events, inr sub_results)
    /\ hierarchical_thinking completion_order (main_agent :: sub_agents) w =
      (logged w ([PrintHierarchical;
                  PrintMainAgent (Subtask.agent (heap w !!! main_agent));
                  Exec main_agent (heap w !!! main_agent)] ++ sub_events),
       inr (agent_result (heap w !!! main_agent) :: sub_results))
    /\ sub_results = results_of (heap w) sub_agents
    /\ length (agent_result (heap w !!! main_agent) :: sub_results)
       = length (main_agent :: sub_agents).
Proof.
  intros Hperm. eexists _, _. split; [by apply parallel_thinking_run|].
  split; [|split; [reflexivity|]].
  - by rewrite hierarchical_thinking_cons.
  - cbn. by rewrite results_of_length.
Qed.

Lemma hierarchical_thinking_run completion_order ls w :
  ls ≠ [] ->
  completion_order (length (tail ls)) ≡ₚ seq 0 (length (tail ls)) ->
  exists es,
    hierarchical_thinking completion_order ls w =
    (logged w es, inr (results_of (heap w) ls)).
Proof.
  intros Hne Hperm. destruct ls as [|l ls]; [done|].
  eexists. by apply hierarchical_thinking_cons.
Qed.

Lemma hierarchical_thinking_empty completion_order w :
  hierarchical_thinking completion_order [] w =
  (logged w [PrintHierarchical], inl IndexError).
Proof. reflexivity. Qed.

(** ** The sequential strategy *)

Lemma set_previous_result_run l r w :
  set_previous_result l r w =
  ({| heap := alter (fun s => {| Subtask.agent := Subtask.agent s;
                                 Subtask.task := Subtask.task s;
                                 Subtask.previous_result := Some r |}) l (heap w);
      agents_registry := agents_registry w;
      trace := trace w; now := now w |}, inr tt).
Proof. reflexivity. Qed.

(** Attaching a previous result changes neither agent nor task, so the
    executor's answer for every subtask stays what it was. *)
Lemma agent_result_alter_previous (h : gmap loc Subtask.t) l r l' :
  agent_result
    (alter (fun s => {| Subtask.agent := Subtask.agent s;
                        Subtask.task := Subtask.task s;
                        Subtask.previous_result := Some r |}) l h !!! l')
  = agent_result (h !!! l').
Proof.
  rewrite lookup_total_alter. case_decide as Heq; [subst l'|done].
  rewrite lookup_total_alt. by destruct (h !! l).
Qed.

Lemma results_of_alter_previous (h : gmap loc Subtask.t) l r ls :
  results_of
    (alter (fun s => {| Subtask.agent := Subtask.agent s;
                        Subtask.task := Subtask.task s;
                        Subtask.previous_result := Some r |}) l h) ls
  = results_of h ls.
Proof.
  unfold results_of. apply map_ext. intros l'.
  apply agent_result_alter_previous.
Qed.

Lemma sequential_loop_run ls results w :
  exists w',
    sequential_loop ls results w = (w', inr (results ++ results_of (heap w) ls)).
Proof.
  revert results w. induction ls as [|l ls IH]; intros results w.
  - exists w. cbn. by rewrite app_nil_r.
  - cbn [sequential_loop]. run. rewrite last_snoc.
    rewrite set_previous_result_run. cbn beta iota.
    match goal with |- context [sequential_loop ls ?rs ?w1] =>
      destruct (IH rs w1) as [w' ->] end.
    exists w'. cbn [heap]. rewrite results_of_alter_previous.
    by rewrite <- app_assoc.
Qed.

Lemma sequential_thinking_run ls w :
  exists w',
    sequential_thinking ls w = (w', inr (results_of (heap w) ls)).
Proof.
  unfold sequential_thinking. run.
  destruct (sequential_loop_run ls [] (logged w [PrintSequential])) as [w' ->].
  by exists w'.
Qed.

Lemma sequential_thinking_empty w :
  sequential_thinking [] w = (logged w [PrintSequential], inr []).
Proof. reflexivity. Qed.

Lemma sequential_events_agree (h h' : gmap loc Subtask.t) (ls : list loc) :
  (forall l, l ∈ ls -> h !!! l = h' !!! l) ->
  sequential_events h ls = sequential_events h' ls.
Proof.
  induction ls as [|l ls IH]; intros Hagree; [done|].
  unfold sequential_events in *. cbn [flat_map].
  rewrite (Hagree l) by apply list_elem_of_here.
  rewrite IH; [done|]. intros l' Hl'. by apply Hagree, list_elem_of_further.
Qed.

(** On distinct subtask dicts every executor call of the sequential loop
    sees its subtask as it was before the run, and the run leaves on each
    subtask the result of that same subtask. *)
Lemma sequential_loop_distinct (ls : list loc) (results : list Result.t) w :
  NoDup ls ->
  exists w',
    sequential_loop ls results w
      = (w', inr (results ++ results_of (heap w) ls))
    /\ trace w' = trace w ++ sequential_events (heap w) ls
    /\ (forall l, l ∉ ls -> heap w' !! l = heap w !! l)
    /\ (forall l s, l ∈ ls -> heap w !! l = Some s ->
         heap w' !! l =
         Some {| Subtask.agent := Subtask.agent s;
                 Subtask.task := Subtask.task s;
                 Subtask.previous_result := Some (agent_result s) |}).
Proof.
  revert results w. induction ls as [|l ls IH]; intros results w Hnd.
  - exists w. cbn. rewrite !app_nil_r. repeat split.
    intros l s Hl. by apply not_elem_of_nil in Hl.
  - apply NoDup_cons in Hnd as [Hl Hnd].
    cbn [sequential_loop]. run. rewrite last_snoc.
    rewrite set_previous_result_run. cbn beta iota.
    match goal with |- context [sequential_loop ls ?rs ?w1] =>
      destruct (IH rs w1 Hnd) as (w' & -> & Htr & Hout & Hin) end.
    cbn [heap trace logged] in *.
    exists w'. split; [|split; [|split]].
    + rewrite results_of_alter_previous. by rewrite <- app_assoc.
    + rewrite Htr, <- app_assoc. f_equal.
      unfold sequential_events at 2. cbn [flat_map app]. do 2 f_equal.
      apply sequential_events_agree. intros l' Hl'.
      apply lookup_total_alter_ne. by intros ->.
    + intros l' [Hne Hl']%not_elem_of_cons.
      rewrite Hout by done. by apply lookup_alter_ne.
    + intros l' s [->|Hl']%elem_of_cons Hs.
      * rewrite Hout by done. rewrite lookup_alter_eq, Hs. cbn.
        by rewrite (lookup_total_correct _ _ _ Hs).
      * apply Hin; [done|]. rewrite lookup_alter_ne; [done|]. by intros ->.
Qed.

Lemma sequential_thinking_distinct (ls : list loc) w :
  NoDup ls ->
  exists w',
    sequential_thinking ls w = (w', inr (results_of (heap w) ls))
    /\ trace w' = trace w ++ PrintSequential :: sequential_events (heap w) ls
    /\ (forall l s, l ∈ ls -> heap w !! l = Some s ->
         heap w' !! l =
         Some {| Subtask.agent := Subtask.agent s;
                 Subtask.task := Subtask.task s;
                 Subtask.previous_result := Some (agent_result s) |}).
Proof.
  intros Hnd. unfold sequential_thinking. run.
  destruct (sequential_loop_distinct ls [] (logged w [PrintSequential]) Hnd)
    as (w' & -> & Htr & _ & Hin).
  exists w'. split; [done|]. split; [|done].
  rewrite Htr. cbn. by rewrite <- app_assoc.
Qed.

(** ** The mesh strategy *)

Lemma mesh_channels_run (ls : list loc) (ch : gmap str (list Result.t)) (w : world) :
  mesh_channels ls ch w =
  (w, inr (foldl (fun ch l => <[Subtask.agent (heap w !!! l) := []]> ch) ch ls)).
Proof.
  revert ch. induction ls as [|l ls IH]; intros ch; [done|].
  cbn [mesh_channels foldl]. run. apply IH.
Qed.

Lemma mesh_channels_lookup (h : gmap loc Subtask.t) (ls : list loc)
    (ch : gmap str (list Result.t)) (a : str) :
  foldl (fun ch l => <[Subtask.agent (h !!! l) := []]> ch) ch ls !! a =
  if decide (a ∈ agents_of h ls) then Some [] else ch !! a.
Proof.
  revert ch. induction ls as [|l ls IH]; intros ch.
  - cbn. rewrite decide_False; [done | apply not_elem_of_nil].
  - cbn [foldl agents_of map]. rewrite IH. fold (agents_of h ls).
    destruct (decide (a ∈ agents_of h ls)) as [Hin|Hin].
    + rewrite decide_True; [done | by apply list_elem_of_further].
    + destruct (decide (a = Subtask.agent (h !!! l))) as [->|Hne].
      * rewrite decide_True by apply list_elem_of_here.
        apply lookup_insert_eq.
      * rewrite decide_False by (intros [?|?]%elem_of_cons; congruence).
        by apply lookup_insert_ne.
Qed.

Lemma mesh_share_lookup (name : str) (r : Result.t) (ch : gmap str (list Result.t)) (a : str) :
  mesh_share name r ch !! a =
  (fun q => if bool_decide (a ≠ name) then q ++ [r] else q) <$> ch !! a.
Proof.
  unfold mesh_share. rewrite map_lookup_imap. by destruct (ch !! a).
Qed.

Lemma mesh_loop_run (ls : list loc) (ch : gmap str (list Result.t))
    (results : list Result.t) (w : world) :
  mesh_loop ls ch results w =
  (logged w (mesh_events (heap w) ls),
   inr (results ++ results_of (heap w) ls,
        foldl (fun ch l => mesh_share (Subtask.agent (heap w !!! l))
                                      (agent_result (heap w !!! l)) ch) ch ls)).
Proof.
  revert ch results w. induction ls as [|l ls IH]; intros ch results w.
  - cbn. by rewrite logged_nil, app_nil_r.
  - cbn [mesh_loop]. run. rewrite IH. run. cbn [foldl].
    unfold results_of. cbn [map]. by rewrite <- !app_assoc.
Qed.

Lemma mesh_shares_lookup (h : gmap loc Subtask.t) (ls : list loc)
    (ch : gmap str (list Result.t)) (a : str) :
  foldl (fun ch l => mesh_share (Subtask.agent (h !!! l))
                                (agent_result (h !!! l)) ch) ch ls !! a =
  (fun q => q ++ filter (fun r => Result.agent r ≠ a) (results_of h ls))
    <$> ch !! a.
Proof.
  revert ch. induction ls as [|l ls IH]; intros ch.
  - cbn. destruct (ch !! a); cbn; [by rewrite app_nil_r | done].
  - cbn [foldl]. rewrite IH, mesh_share_lookup.
    destruct (ch !! a) as [q|]; cbn; [|done]. f_equal.
    case_bool_decide as Hd; case_decide as Hd'; try congruence.
    + by rewrite <- app_assoc.
    + done.
Qed.

Lemma mesh_run_run ls w :
  mesh_run ls w =
  (logged w (PrintMesh :: mesh_events (heap w) ls),
   inr (results_of (heap w) ls,
        foldl (fun ch l => mesh_share (Subtask.agent (heap w !!! l))
                                      (agent_result (heap w !!! l)) ch)
              (foldl (fun ch l => <[Subtask.agent (heap w !!! l) := []]> ch) ∅ ls)
              ls)).
Proof.
  unfold mesh_run. run. rewrite mesh_channels_run. run.
  rewrite mesh_loop_run. run. reflexivity.
Qed.

Lemma mesh_thinking_run ls w :
  mesh_thinking ls w =
  (logged w (PrintMesh :: mesh_events (heap w) ls), inr (results_of (heap w) ls)).
Proof. unfold mesh_thinking. run. rewrite mesh_run_run. reflexivity. Qed.

(** C8. The Mesh strategy runs the executor on every subtask in the order
    of the list and returns the results in that order, one per subtask.
    There is one queue per agent name of the run; when the run ends the
    queue of agent [a] holds, in order, the results of the subtasks of the
    other agents, and no result that [a] itself produced. *)
Theorem mesh_thinking_broadcast (subtasks : list loc) w :
  exists channels : gmap str (list Result.t),
    mesh_run subtasks w =
      (logged w (PrintMesh :: mesh_events (heap w) subtasks),
       inr (results_of (heap w) subtasks, channels))
    /\ mesh_thinking subtasks w =
      (logged w (PrintMesh :: mesh_events (heap w) subtasks),
       inr (results_of (heap w) subtasks))
    /\ length (results_of (heap w) subtasks) = length subtasks
    /\ forall a : str,
         channels !! a =
         if decide (a ∈ agents_of (heap w) subtasks)
         then Some (filter (fun r => Result.agent r ≠ a)
                           (results_of (heap w) subtasks))
         else None.
Proof.
  eexists. split; [apply mesh_run_run|]. split; [apply mesh_thinking_run|].
  split; [apply results_of_length|]. intros a.
  rewrite mesh_shares_lookup, mesh_channels_lookup.
  case_decide; [done|]. by rewrite lookup_empty.
Qed.

(** ** The synthesiser *)

Lemma successful_le results : successful results <= length results.
Proof. apply length_filter. Qed.

Lemma synthesize_results_run results w :
  results ≠ [] ->
  synthesize_results results w =
  (logged w [PrintSynthesis],
   inr {| summary := summary_text;
          key_insights := insights_of results;
          recommendations :=
            recommend (ratio (successful results) (length results));
          confidence_score := ratio (successful results) (length results) |}).
Proof.
  intros Hne. unfold synthesize_results. run.
  destruct results as [|r results]; [done|]. reflexivity.
Qed.

Lemma synthesize_results_empty w :
  synthesize_results [] w = (logged w [PrintSynthesis], inl ZeroDivisionError).
Proof. reflexivity. Qed.

Lemma Zpos_of_nat n : n ≠ 0 -> Z.pos (Pos.of_nat n) = Z.of_nat n.
Proof.
  intros Hn. destruct n as [|n]; [done|].
  rewrite <- Pos.of_nat_succ, Zpos_P_of_succ_nat. lia.
Qed.

Lemma ratio_quotient a b :
  b ≠ 0 ->
  (ratio a b == inject_Z (Z.of_nat a) / inject_Z (Z.of_nat b))%Q.
Proof.
  intros Hb. unfold ratio. rewrite Qred_correct.
  rewrite <- (Zpos_of_nat b) by done. apply Qmake_Qdiv.
Qed.

Lemma ratio_bounds a b : a <= b -> b ≠ 0 -> (0 <= ratio a b <= 1)%Q.
Proof.
  intros Hle Hb. unfold ratio. rewrite !Qred_correct.
  unfold Qle. cbn [Qnum Qden]. rewrite (Zpos_of_nat b) by done. lia.
Qed.

Lemma ratio_all n : n ≠ 0 -> ratio n n = 1%Q.
Proof.
  intros Hn. unfold ratio. change 1%Q with (Qred 1). apply Qred_complete.
  unfold Qeq. cbn [Qnum Qden]. rewrite (Zpos_of_nat n) by done. lia.
Qed.

Lemma Qgtb_lt x y : Qgtb x y = true <-> (y < x)%Q.
Proof.
  unfold Qgtb. rewrite negb_true_iff, <- not_true_iff_false, Qle_bool_iff.
  split; [apply Qnot_le_lt | apply Qlt_not_le].
Qed.

Lemma Qgtb_le x y : Qgtb x y = false <-> (x <= y)%Q.
Proof. unfold Qgtb. rewrite negb_false_iff. apply Qle_bool_iff. Qed.

(** C3. For a non-empty list of results the synthesiser returns a record
    whose confidence score is the number of completed results divided by
    the number of results, a value between 0 and 1. *)
Theorem synthesize_results_confidence (results : list Result.t) w :
  results ≠ [] ->
  exists synthesis,
    synthesize_results results w = (logged w [PrintSynthesis], inr synthesis)
    /\ (confidence_score synthesis ==
        inject_Z (Z.of_nat (successful results))
        / inject_Z (Z.of_nat (length results)))%Q
    /\ (0 <= confidence_score synthesis <= 1)%Q.
Proof.
  intros Hne. eexists. split; [by apply synthesize_results_run|].
  cbn [confidence_score].
  assert (length results ≠ 0) by (by destruct results).
  split; [by apply ratio_quotient|].
  apply ratio_bounds; [apply successful_le | done].
Qed.

Lemma recommend_cases score :
  ((8 # 10 < score)%Q /\ recommend score = [recommend_proceed])
  \/ ((score <= 8 # 10)%Q /\ recommend score = [recommend_more_analysis]).
Proof.
  unfold recommend. destruct (Qgtb score (8 # 10)) eqn:Hgt.
  - left. split; [by apply Qgtb_lt | done].
  - right. split; [by apply Qgtb_le | done].
Qed.

Lemma ratio_above_threshold k n :
  n ≠ 0 -> (8 # 10 < ratio k n)%Q <-> 4 * n < 5 * k.
Proof.
  intros Hn. unfold ratio. rewrite Qred_correct.
  unfold Qlt. cbn [Qnum Qden]. rewrite (Zpos_of_nat n) by done. lia.
Qed.

Lemma recommendations_differ : recommend_proceed ≠ recommend_more_analysis.
Proof. discriminate. Qed.

(** C9. For a non-empty list of results the synthesised record has exactly
    one recommendation, decided by the results: its confidence score is the
    number of completed results divided by the number of results; the
    recommendation is the one to proceed when that score exceeds 0.8, that
    is when more than four fifths of the results are completed, and the one
    to analyse further otherwise, also at exactly 0.8.  With two of three
    results completed the score is 2/3 and the recommendation is the one to
    analyse further. *)
Theorem synthesize_results_recommendation (results : list Result.t) w :
  results ≠ [] ->
  exists synthesis,
    synthesize_results results w = (logged w [PrintSynthesis], inr synthesis)
    /\ (confidence_score synthesis ==
        inject_Z (Z.of_nat (successful results))
        / inject_Z (Z.of_nat (length results)))%Q
    /\ (((8 # 10 < confidence_score synthesis)%Q
         /\ recommendations synthesis = [recommend_proceed])
        \/ ((confidence_score synthesis <= 8 # 10)%Q
            /\ recommendations synthesis = [recommend_more_analysis]))
    /\ (recommendations synthesis = [recommend_proceed]
        <-> 4 * length results < 5 * successful results)
    /\ (recommendations synthesis = [recommend_more_analysis]
        <-> 5 * successful results <= 4 * length results)
    /\ ((confidence_score synthesis == 8 # 10)%Q ->
        recommendations synthesis = [recommend_more_analysis])
    /\ (length results = 3 -> successful results = 2 ->
        confidence_score synthesis = (2 # 3)%Q
        /\ recommendations synthesis = [recommend_more_analysis]).
Proof.
  intros Hne. eexists. split; [by apply synthesize_results_run|].
  cbn [confidence_score recommendations].
  assert (length results ≠ 0) as Hlen by (by destruct results).
  split; [by apply ratio_quotient|].
  pose proof (ratio_above_threshold (successful results) (length results) Hlen)
    as Hcount.
  set (score := ratio (successful results) (length results)) in *.
  split; [apply recommend_cases|].
  destruct (recommend_cases score) as [[Hlt Hrec]|[Hle Hrec]];
    rewrite Hrec; (split; [|split; [|split]]).
  - split; [intros _; by apply Hcount | done].
  - split.
    + intros Heq. injection Heq as Heq. by destruct recommendations_differ.
    + intros Hfew. apply Hcount in Hlt. lia.
  - intros Heq. rewrite Heq in Hlt. by apply Qlt_irrefl in Hlt.
  - intros Hthree Htwo. subst score. rewrite Hthree, Htwo in Hrec.
    vm_compute in Hrec. by destruct recommendations_differ.
  - split.
    + intros Heq. injection Heq as Heq. symmetry in Heq.
      by destruct recommendations_differ.
    + intros Hmany. apply Hcount in Hmany. by apply Qlt_not_le in Hmany.
  - split; [intros _|done].
    destruct (decide (4 * length results < 5 * successful results))
      as [Hmany|Hfew]; [|lia].
    apply Hcount in Hmany. by apply Qlt_not_le in Hmany.
  - done.
  - intros Hthree Htwo. subst score. by rewrite Hthree, Htwo.
Qed.

(** ** Runs with the reference executor *)

Lemma successful_all results :
  Forall (fun r => Result.status r = completed) results ->
  successful results = length results.
Proof.
  unfold successful. induction 1 as [|r results Hr _ IH]; [done|].
  rewrite filter_cons_True by done. cbn [length]. by rewrite IH.
Qed.

Lemma successful_results_of h ls :
  successful (results_of h ls) = length (results_of h ls).
Proof. apply successful_all, results_of_completed. Qed.

Lemma results_of_nonempty h ls : ls ≠ [] -> results_of h ls ≠ [].
Proof. by destruct ls. Qed.

Lemma synthesize_results_of h ls w :
  ls ≠ [] ->
  synthesize_results (results_of h ls) w =
  (logged w [PrintSynthesis],
   inr {| summary := summary_text;
          key_insights := insights_of (results_of h ls);
          recommendations := [recommend_proceed];
          confidence_score := 1 |}).
Proof.
  intros Hne. rewrite synthesize_results_run by by apply results_of_nonempty.
  rewrite successful_results_of, ratio_all; [done|].
  rewrite results_of_length. by destruct ls.
Qed.

Lemma thinking_patterns_cases completion_order pattern strategy :
  thinking_patterns completion_order !! pattern = Some strategy ->
  strategy = sequential_thinking
  \/ strategy = parallel_thinking completion_order
  \/ strategy = hierarchical_thinking completion_order
  \/ strategy = mesh_thinking.
Proof.
  unfold thinking_patterns. rewrite !lookup_insert_Some, lookup_empty.
  intros [[_ <-]|[_ [[_ <-]|[_ [[_ <-]|[_ [[_ <-]|[_ ?]]]]]]]]; auto.
  discriminate.
Qed.

Lemma thinking_patterns_run completion_order pattern strategy ls w :
  (forall n, completion_order n ≡ₚ seq 0 n) ->
  thinking_patterns completion_order !! pattern = Some strategy ->
  ls ≠ [] ->
  exists w', strategy ls w = (w', inr (results_of (heap w) ls)).
Proof.
  intros Hperm Hpat Hne.
  destruct (thinking_patterns_cases _ _ _ Hpat) as [-> | [-> | [-> | ->]]].
  - apply sequential_thinking_run.
  - eexists. by apply parallel_thinking_run.
  - destruct (hierarchical_thinking_run completion_order ls w Hne (Hperm _))
      as [es ->]. by eexists.
  - eexists. apply mesh_thinking_run.
Qed.

(** ** The analyser *)

Lemma analyze_request_run lower user_request :
  exists analysis,
    (forall w, analyze_request lower user_request w = (w, inr analysis))
    /\ (analysis = default_analysis user_request
        \/ analysis = trend_analysis user_request).
Proof.
  unfold analyze_request.
  destruct (contains kw_analise (lower user_request)
            && contains kw_tendencias (lower user_request)).
  - exists (trend_analysis user_request). split; [done | by right].
  - exists (default_analysis user_request). split; [done | by left].
Qed.

Lemma complexity_cases (user_request : str) :
  let n := length (split user_request) in
  (n < 10 /\ _calculate_complexity user_request = 3)
  \/ (10 <= n < 30 /\ _calculate_complexity user_request = 5)
  \/ (30 <= n < 50 /\ _calculate_complexity user_request = 7)
  \/ (50 <= n /\ _calculate_complexity user_request = 9).
Proof.
  cbn zeta. unfold _calculate_complexity.
  repeat case_match; rewrite ?Nat.ltb_lt, ?Nat.ltb_ge in *; lia.
Qed.

(** C6. The complexity score of the analysis is 3 for fewer than 10 words,
    5 from 10 to 29 words, 7 from 30 to 49 words and 9 from 50 words on,
    where the words of the request are its maximal runs of non-whitespace
    characters. *)
Theorem analyze_request_complexity lower (user_request : str) w :
  exists analysis,
    analyze_request lower user_request w = (w, inr analysis)
    /\ length (split user_request) = word_count user_request
    /\ ((word_count user_request < 10 /\ complexity analysis = 3)
        \/ (10 <= word_count user_request < 30 /\ complexity analysis = 5)
        \/ (30 <= word_count user_request < 50 /\ complexity analysis = 7)
        \/ (50 <= word_count user_request /\ complexity analysis = 9)).
Proof.
  destruct (analyze_request_run lower user_request) as (a & Hrun & Ha).
  exists a. split; [apply Hrun|]. split; [apply split_length_word_count|].
  rewrite <- split_length_word_count.
  replace (complexity a) with (_calculate_complexity user_request)
    by (by destruct Ha as [-> | ->]).
  apply complexity_cases.
Qed.

(** C7. The analyser is a total, deterministic function without side
    effects: for every request there is one analysis that every call
    returns, whatever the registry, the subtask objects, the trace and the
    clock are, and the call leaves all of them as they were; two calls in
    a row return that same analysis twice. *)
Theorem analyze_request_deterministic lower (user_request : str) :
  exists analysis,
    (forall w, analyze_request lower user_request w = (w, inr analysis))
    /\ (forall w,
          (first ← analyze_request lower user_request;
           second ← analyze_request lower user_request;
           mret (first, second)) w = (w, inr (analysis, analysis))).
Proof.
  destruct (analyze_request_run lower user_request) as (a & Hrun & _).
  exists a. split; [done|]. intros w.
  rewrite bind_run, Hrun. cbn beta iota. by rewrite bind_run, Hrun.
Qed.

(** ** The orchestration run *)

Lemma isoformat_now_run w : isoformat_now w = (w, inr (now w)).
Proof. reflexivity. Qed.

Lemma snapshot_run ls w :
  snapshot ls w = (w, inr (map (fun l => heap w !!! l) ls)).
Proof. reflexivity. Qed.

#[local] Hint Rewrite isoformat_now_run snapshot_run : run.

Lemma alloc_all_run ss w :
  exists w1 ls,
    alloc_all ss w = (w1, inr ls)
    /\ length ls = length ss
    /\ trace w1 = trace w.
Proof.
  revert w. induction ss as [|s ss IH]; intros w.
  - by exists w, [].
  - cbn [alloc_all]. rewrite bind_run. unfold alloc at 1. cbn beta iota zeta.
    match goal with |- context [(alloc_all ss ≫= _) ?w1] =>
      destruct (IH w1) as (w2 & ls & Hrun & Hlen & Htr) end.
    rewrite bind_run, Hrun. cbn beta iota. rewrite ret_run.
    eexists _, _. split; [reflexivity|]. split; [cbn; by rewrite Hlen|].
    by rewrite Htr.
Qed.

Lemma thinking_patterns_sequential completion_order :
  thinking_patterns completion_order !! lit "sequential"
  = Some sequential_thinking.
Proof. unfold thinking_patterns. apply lookup_insert_eq. Qed.

Lemma thinking_patterns_parallel completion_order :
  thinking_patterns completion_order !! lit "parallel"
  = Some (parallel_thinking completion_order).
Proof.
  unfold thinking_patterns.
  rewrite lookup_insert_ne by discriminate. apply lookup_insert_eq.
Qed.

Lemma execute_ultrathink_empty lower completion_order user_request w :
  (forall w, analyze_request lower user_request w
             = (w, inr (default_analysis user_request))) ->
  execute_ultrathink lower completion_order user_request w =
  (logged w [PrintStart user_request; PrintAnalysis (lit "sequential") 0;
             PrintSequential; PrintSynthesis],
   inl ZeroDivisionError).
Proof.
  intros Hrun. unfold execute_ultrathink. run. rewrite Hrun. run.
  cbn [thinking_pattern default_analysis required_agents subtasks length].
  rewrite thinking_patterns_sequential. cbn [default alloc_all]. run.
  rewrite sequential_thinking_empty. run.
  rewrite synthesize_results_empty. run. reflexivity.
Qed.

(** ** Concrete runs *)

Lemma reverse_completion_perm n : reverse_completion n ≡ₚ seq 0 n.
Proof. unfold reverse_completion. symmetry. apply Permutation_rev. Qed.

(** C4, on three subtasks whose executions complete last to first. *)
Lemma parallel_thinking_order_reverse :
  reverse_completion (length [0; 1; 2]) ≡ₚ seq 0 (length [0; 1; 2])
  /\ exists results,
       parallel_thinking reverse_completion [0; 1; 2] three_subtasks =
         (logged three_subtasks
            (PrintParallel :: start_events (heap three_subtasks) [0; 1; 2]
             ++ exec_events (heap three_subtasks) [0; 1; 2]
                  (reverse_completion (length [0; 1; 2]))),
          inr results)
       /\ length results = length [0; 1; 2]
       /\ forall i, results !! i =
                    (fun l => agent_result (heap three_subtasks !!! l))
                      <$> [0; 1; 2] !! i.
Proof.
  split; [apply reverse_completion_perm|].
  apply (parallel_thinking_order reverse_completion [0; 1; 2] three_subtasks).
  apply reverse_completion_perm.
Defined.

Example parallel_thinking_reverse_trace :
  trace (fst (parallel_thinking reverse_completion [0; 1; 2] three_subtasks)) =
    [PrintParallel;
     PrintParallelStart (lit "TrendingAgent") task_trending;
     PrintParallelStart (lit "AnalyzerAgent") task_analyzer;
     PrintParallelStart (lit "SynthesisAgent") task_synthesis;
     Exec 2 synthesizer; Exec 1 analyzer; Exec 0 trending]
  /\ snd (parallel_thinking reverse_completion [0; 1; 2] three_subtasks) =
     inr [agent_result trending; agent_result analyzer;
          agent_result synthesizer].
Proof. split; vm_compute; reflexivity. Qed.

(** C5, on a primary and two subordinate subtasks. *)
Lemma hierarchical_thinking_parallel_three :
  reverse_completion (length [1; 2]) ≡ₚ seq 0 (length [1; 2])
  /\ exists sub_events sub_results,
       parallel_thinking reverse_completion [1; 2] three_subtasks =
         (logged three_subtasks sub_events, inr sub_results)
       /\ hierarchical_thinking reverse_completion (0 :: [1; 2]) three_subtasks =
         (logged three_subtasks
            ([PrintHierarchical;
              PrintMainAgent (Subtask.agent (heap three_subtasks !!! 0));
              Exec 0 (heap three_subtasks !!! 0)] ++ sub_events),
          inr (agent_result (heap three_subtasks !!! 0) :: sub_results))
       /\ sub_results = results_of (heap three_subtasks) [1; 2]
       /\ length (agent_result (heap three_subtasks !!! 0) :: sub_results)
          = length (0 :: [1; 2]).
Proof.
  split; [apply reverse_completion_perm|].
  apply (hierarchical_thinking_parallel reverse_completion 0 [1; 2]
           three_subtasks).
  apply reverse_completion_perm.
Defined.

(** C3, on two completed results and a failed one. *)
Lemma synthesize_results_confidence_two_of_three :
  [agent_result trending; failed_result; agent_result synthesizer] ≠ []
  /\ exists synthesis,
       synthesize_results
         [agent_result trending; failed_result; agent_result synthesizer]
         empty_world
       = (logged empty_world [PrintSynthesis], inr synthesis)
       /\ (confidence_score synthesis ==
           inject_Z (Z.of_nat (successful
             [agent_result trending; failed_result; agent_result synthesizer]))
           / inject_Z (Z.of_nat (length
             [agent_result trending; failed_result; agent_result synthesizer])))%Q
       /\ (0 <= confidence_score synthesis <= 1)%Q.
Proof.
  split; [discriminate|].
  apply (synthesize_results_confidence
           [agent_result trending; failed_result; agent_result synthesizer]
           empty_world).
  discriminate.
Defined.

Example synthesize_two_of_three :
  snd (synthesize_results
         [agent_result trending; failed_result; agent_result synthesizer]
         empty_world)
  = inr {| summary := summary_text;
           key_insights :=
             insights_of
               [agent_result trending; failed_result; agent_result synthesizer];
           recommendations := [recommend_more_analysis];
           confidence_score := 2 # 3 |}.
Proof. vm_compute. reflexivity. Qed.

(** C9, on two completed results and a failed one, and on three completed
    results. *)
Lemma synthesize_results_recommendation_two_of_three :
  [agent_result trending; failed_result; agent_result synthesizer] ≠ []
  /\ (exists synthesis,
        synthesize_results
          [agent_result trending; failed_result; agent_result synthesizer]
          empty_world
        = (logged empty_world [PrintSynthesis], inr synthesis)
        /\ confidence_score synthesis = (2 # 3)%Q
        /\ recommendations synthesis = [recommend_more_analysis])
  /\ [agent_result trending; agent_result analyzer; agent_result synthesizer]
     ≠ []
  /\ (exists synthesis,
        synthesize_results
          [agent_result trending; agent_result analyzer;
           agent_result synthesizer] empty_world
        = (logged empty_world [PrintSynthesis], inr synthesis)
        /\ (confidence_score synthesis == 1)%Q
        /\ recommendations synthesis = [recommend_proceed]).
Proof.
  split; [discriminate|]. split; [|split; [discriminate|]].
  - destruct (synthesize_results_recommendation
                [agent_result trending; failed_result; agent_result synthesizer]
                empty_world)
      as (synthesis & Hrun & _ & _ & _ & _ & _ & Hscenario); [discriminate|].
    exists synthesis. split; [exact Hrun|].
    apply Hscenario; reflexivity.
  - destruct (synthesize_results_recommendation
                [agent_result trending; agent_result analyzer;
                 agent_result synthesizer] empty_world)
      as (synthesis & Hrun & Hscore & _ & Hproceed & _); [discriminate|].
    exists synthesis. split; [exact Hrun|]. split.
    + rewrite Hscore. vm_compute. reflexivity.
    + apply Hproceed. vm_compute. lia.
Defined.

(** ** Runs without subtasks *)

(** C2, as the code has it.  When the analysis has no subtasks nothing
    stops the run at the entry of [execute_ultrathink]: the pattern is the
    sequential one, the sequential strategy is entered on the empty list,
    makes no executor call and returns the empty list of results, and that
    list is handed to the synthesiser. *)
Theorem execute_ultrathink_empty_subtasks lower completion_order
    (user_request : str) w analysis :
  analyze_request lower user_request w = (w, inr analysis) ->
  subtasks analysis = [] ->
  default sequential_thinking
    (thinking_patterns completion_order !! thinking_pattern analysis)
  = sequential_thinking
  /\ (forall w1,
        sequential_thinking [] w1 = (logged w1 [PrintSequential], inr []))
  /\ trace (fst (execute_ultrathink lower completion_order user_request w))
     = trace w ++ [PrintStart user_request; PrintAnalysis (lit "sequential") 0;
                   PrintSequential; PrintSynthesis].
Proof.
  intros Hrun Hempty.
  destruct (analyze_request_run lower user_request) as (a & Ha & Hcases).
  rewrite Ha in Hrun. injection Hrun as <-.
  destruct Hcases as [-> | ->]; [|discriminate].
  split; [|split].
  - cbn [thinking_pattern default_analysis].
    by rewrite thinking_patterns_sequential.
  - apply sequential_thinking_empty.
  - by rewrite execute_ultrathink_empty.
Qed.

(** C2, on the request "Say hello". *)
Lemma execute_ultrathink_empty_subtasks_say_hello :
  analyze_request lower_latin1 (lit "Say hello") empty_world
    = (empty_world, inr (default_analysis (lit "Say hello")))
  /\ subtasks (default_analysis (lit "Say hello")) = []
  /\ trace (fst (execute_ultrathink lower_latin1 reverse_completion
                   (lit "Say hello") empty_world))
     = trace empty_world
       ++ [PrintStart (lit "Say hello"); PrintAnalysis (lit "sequential") 0;
           PrintSequential; PrintSynthesis].
Proof.
  split; [reflexivity|]. split; [reflexivity|].
  apply (execute_ultrathink_empty_subtasks lower_latin1 reverse_completion
           (lit "Say hello") empty_world (default_analysis (lit "Say hello")));
    reflexivity.
Defined.

(** The request "Say hello" has no subtasks; its run enters the sequential
    strategy and ends with a division by zero. *)
Lemma say_hello_divides_by_zero :
  snd (analyze_request lower_latin1 (lit "Say hello") empty_world)
    = inr (default_analysis (lit "Say hello"))
  /\ subtasks (default_analysis (lit "Say hello")) = []
  /\ snd (execute_ultrathink lower_latin1 reverse_completion (lit "Say hello")
            empty_world) = inl ZeroDivisionError
  /\ PrintSequential
     ∈ trace (fst (execute_ultrathink lower_latin1 reverse_completion
                     (lit "Say hello") empty_world)).
Proof.
  split; [reflexivity|]. split; [reflexivity|]. split; [reflexivity|].
  vm_compute. do 2 apply list_elem_of_further. apply list_elem_of_here.
Qed.

(** ** Runs with subtasks *)

(** C10. The reference executor reports [completed] for every subtask.
    Hence every strategy of the dispatch table, on a non-empty list, returns
    only completed results, for which the synthesiser computes the
    confidence score 1 and recommends to proceed; and a run of
    [execute_ultrathink] whose analysis has subtasks returns an outcome with
    only completed results, confidence score 1 and the recommendation to
    proceed. *)
Theorem reference_executor_full_confidence lower completion_order :
  (forall n, completion_order n ≡ₚ seq 0 n) ->
  (forall (subtask : loc) w,
     exists r,
       simulate_agent_execution subtask w =
         (logged w [Exec subtask (heap w !!! subtask)], inr r)
       /\ Result.status r = completed)
  /\ (forall pattern strategy (subtasks : list loc) w,
        thinking_patterns completion_order !! pattern = Some strategy ->
        subtasks ≠ [] ->
        exists w' results w'' synthesis,
          strategy subtasks w = (w', inr results)
          /\ Forall (fun r => Result.status r = completed) results
          /\ synthesize_results results w' = (w'', inr synthesis)
          /\ confidence_score synthesis = 1%Q
          /\ recommendations synthesis = [recommend_proceed])
  /\ (forall (user_request : str) w analysis,
        analyze_request lower user_request w = (w, inr analysis) ->
        subtasks analysis ≠ [] ->
        exists w' outcome,
          execute_ultrathink lower completion_order user_request w
            = (w', inr outcome)
          /\ Forall (fun r => Result.status r = completed) (out_results outcome)
          /\ confidence_score (out_synthesis outcome) = 1%Q
          /\ recommendations (out_synthesis outcome) = [recommend_proceed]).
Proof.
  intros Hperm. split; [|split].
  - intros subtask w. eexists. split; [apply simulate_agent_execution_run|done].
  - intros pattern strategy ls w Hpat Hne.
    destruct (thinking_patterns_run completion_order pattern strategy ls w
                Hperm Hpat Hne) as [w' Hrun].
    eexists w', _, _, _. split; [exact Hrun|].
    split; [apply results_of_completed|].
    split; [by apply synthesize_results_of|done].
  - intros user_request w analysis Hrun Hne.
    destruct (analyze_request_run lower user_request) as (a & Ha & Hcases).
    rewrite Ha in Hrun. injection Hrun as <-.
    destruct Hcases as [-> | ->]; [done|].
    unfold execute_ultrathink. run. rewrite Ha. run.
    cbn [thinking_pattern trend_analysis].
    rewrite thinking_patterns_parallel. cbn [default].
    match goal with |- context [alloc_all ?ss ?w0] =>
      destruct (alloc_all_run ss w0) as (w1 & ls & -> & Hlen & _) end.
    cbn beta iota. unfold id. run.
    rewrite parallel_thinking_run by apply Hperm. run.
    rewrite synthesize_results_of by (by destruct ls). run.
    eexists _, _. split; [reflexivity|]. cbn.
    split; [apply results_of_completed|done].
Qed.

(** C10, on a request that names both keywords. *)
Lemma reference_executor_full_confidence_trend :
  (forall n, reverse_completion n ≡ₚ seq 0 n)
  /\ analyze_request lower_latin1 trend_request empty_world
     = (empty_world, inr (trend_analysis trend_request))
  /\ subtasks (trend_analysis trend_request) ≠ []
  /\ exists w' outcome,
       execute_ultrathink lower_latin1 reverse_completion trend_request
         empty_world = (w', inr outcome)
       /\ Forall (fun r => Result.status r = completed) (out_results outcome)
       /\ confidence_score (out_synthesis outcome) = 1%Q
       /\ recommendations (out_synthesis outcome) = [recommend_proceed].
Proof.
  split; [apply reverse_completion_perm|]. split; [reflexivity|].
  split; [discriminate|].
  destruct (reference_executor_full_confidence lower_latin1 reverse_completion
              reverse_completion_perm) as (_ & _ & Hrun).
  apply (Hrun trend_request empty_world (trend_analysis trend_request));
    [reflexivity | discriminate].
Defined.

(** ** The sequential strategy on three subtasks *)

(** C1 does not hold of the code: the loop attaches each result to the
    subtask that produced it, after that subtask ran.  On three distinct
    subtasks the executor sees the second and the third without any
    previous result, and when the run ends each subtask carries its own
    result. *)
Theorem sequential_thinking_attaches_own_result :
  snd (sequential_thinking [0; 1; 2] three_subtasks)
    = inr [agent_result trending; agent_result analyzer;
           agent_result synthesizer]
  /\ trace (fst (sequential_thinking [0; 1; 2] three_subtasks))
     = [PrintSequential;
        PrintSequentialStep (lit "TrendingAgent") task_trending;
        Exec 0 trending;
        PrintSequentialStep (lit "AnalyzerAgent") task_analyzer;
        Exec 1 analyzer;
        PrintSequentialStep (lit "SynthesisAgent") task_synthesis;
        Exec 2 synthesizer]
  /\ Subtask.previous_result analyzer = None
  /\ Subtask.previous_result synthesizer = None
  /\ map (fun l => Subtask.previous_result
                     (heap (fst (sequential_thinking [0; 1; 2] three_subtasks))
                      !!! l)) [0; 1; 2]
     = [Some (agent_result trending); Some (agent_result analyzer);
        Some (agent_result synthesizer)].
Proof. repeat split; vm_compute; reflexivity. Qed.


(** ** More concrete runs *)

Example mesh_thinking_three_queues :
  (fun run => (fst <$> run,
               (fun r => snd r !! lit "TrendingAgent") <$> run,
               (fun r => snd r !! lit "AnalyzerAgent") <$> run,
               (fun r => snd r !! lit "SynthesisAgent") <$> run,
               (fun r => snd r !! lit "OtherAgent") <$> run))
    (returned (mesh_run [0; 1; 2] three_subtasks))
  = (Some [agent_result trending; agent_result analyzer;
           agent_result synthesizer],
     Some (Some [agent_result analyzer; agent_result synthesizer]),
     Some (Some [agent_result trending; agent_result synthesizer]),
     Some (Some [agent_result trending; agent_result analyzer]),
     Some None).
Proof. vm_compute. reflexivity. Qed.

(** Two subtasks of one agent share one queue, which receives neither of
    their results. *)
Example mesh_thinking_shared_agent_queues :
  (fun run => ((fun r => snd r !! lit "TrendingAgent") <$> run,
               (fun r => snd r !! lit "SynthesisAgent") <$> run))
    (returned (mesh_run [0; 1; 2] shared_agent))
  = (Some (Some [agent_result synthesizer]),
     Some (Some [agent_result trending;
                 agent_result (Subtask.make (lit "TrendingAgent")
                                            task_analyzer)])).
Proof. vm_compute. reflexivity. Qed.

Example hierarchical_thinking_no_subtasks :
  snd (hierarchical_thinking reverse_completion [] empty_world) = inl IndexError.
Proof. reflexivity. Qed.

(** The same dict twice in the list: the second call sees the result the
    first one left on it. *)
Example sequential_thinking_same_subtask_twice :
  trace (fst (sequential_thinking [0; 0] three_subtasks))
  = [PrintSequential;
     PrintSequentialStep (lit "TrendingAgent") task_trending;
     Exec 0 trending;
     PrintSequentialStep (lit "TrendingAgent") task_trending;
     Exec 0 {| Subtask.agent := lit "TrendingAgent";
               Subtask.task := task_trending;
               Subtask.previous_result := Some (agent_result trending) |}].
Proof. vm_compute. reflexivity. Qed.

Example main_request_words : length (split main_request) = 20.
Proof. reflexivity. Qed.

(** The run of [main]. *)
Example main_request_run :
  (fun outcome =>
     (complexity (out_analysis outcome),
      thinking_pattern (out_analysis outcome),
      subtasks (out_analysis outcome),
      out_results outcome,
      confidence_score (out_synthesis outcome),
      recommendations (out_synthesis outcome)))
    <$> returned (execute_ultrathink lower_latin1 reverse_completion
                    main_request empty_world)
  = Some (5, lit "parallel", [trending; analyzer; synthesizer],
          [agent_result trending; agent_result analyzer;
           agent_result synthesizer],
          1%Q, [recommend_proceed]).
Proof. vm_compute. reflexivity. Qed.

Example say_hello_complexity :
  complexity
    <$> returned (analyze_request lower_latin1 (lit "Say hello") empty_world)
  = Some 3.
Proof. reflexivity. Qed.

(** Four completed results of five: the score is exactly 0.8 and the
    recommendation is to analyse further. *)
Example synthesize_four_of_five :
  (fun s => (confidence_score s, recommendations s))
    <$> returned (synthesize_results
                    [agent_result trending; agent_result analyzer;
                     failed_result; agent_result synthesizer;
                     agent_result trending] empty_world)
  = Some ((4 # 5)%Q, [recommend_more_analysis]).
Proof. vm_compute. reflexivity. Qed.

(** * Further properties of the module *)

(** ** Strategies: results, frame and edge cases *)

(** The world after one pass of the sequential loop over the subtask [l]. *)
Lemma sequential_loop_cons l ls results w :
  sequential_loop (l :: ls) results w =
  sequential_loop ls (results ++ [agent_result (heap w !!! l)])
    {| heap := alter (fun s => {| Subtask.agent := Subtask.agent s;
                                  Subtask.task := Subtask.task s;
                                  Subtask.previous_result :=
                                    Some (agent_result (heap w !!! l)) |})
                     l (heap w);
       agents_registry := agents_registry w;
       trace := trace w
                ++ [PrintSequentialStep (Subtask.agent (heap w !!! l))
                                        (Subtask.task (heap w !!! l));
                    Exec l (heap w !!! l)];
       now := now w |}.
Proof.
  cbn [sequential_loop]. run. rewrite last_snoc.
  rewrite set_previous_result_run. cbn beta iota. reflexivity.
Qed.

Lemma duties_alter_previous (h : gmap loc Subtask.t) l r l' :
  Subtask.agent
    (alter (fun s => {| Subtask.agent := Subtask.agent s;
                        Subtask.task := Subtask.task s;
                        Subtask.previous_result := Some r |}) l h !!! l')
  = Subtask.agent (h !!! l')
  /\ Subtask.task
    (alter (fun s => {| Subtask.agent := Subtask.agent s;
                        Subtask.task := Subtask.task s;
                        Subtask.previous_result := Some r |}) l h !!! l')
  = Subtask.task (h !!! l').
Proof.
  rewrite lookup_total_alter. case_decide as Heq; [subst l'|done].
  rewrite lookup_total_alt. by destruct (h !! l).
Qed.

Lemma sequential_loop_frame (ls : list loc) (results : list Result.t) w :
  agents_registry (fst (sequential_loop ls results w)) = agents_registry w
  /\ now (fst (sequential_loop ls results w)) = now w
  /\ (exists es, trace (fst (sequential_loop ls results w)) = trace w ++ es)
  /\ dom (heap (fst (sequential_loop ls results w))) = dom (heap w)
  /\ (forall l, l ∉ ls ->
        heap (fst (sequential_loop ls results w)) !! l = heap w !! l)
  /\ same_duties w (fst (sequential_loop ls results w)).
Proof.
  revert results w. induction ls as [|l ls IH]; intros results w.
  - cbn. split; [done|]. split; [done|].
    split; [exists []; by rewrite app_nil_r|]. by repeat split.
  - rewrite sequential_loop_cons.
    match goal with |- context [sequential_loop ls ?rs ?w1] =>
      destruct (IH rs w1) as (Hreg & Hnow & [es Htr] & Hdom & Hout & Hsame) end.
    cbn [agents_registry now trace heap] in *.
    split; [done|]. split; [done|]. split; [|split; [|split]].
    + eexists. rewrite Htr, <- app_assoc. reflexivity.
    + rewrite Hdom. apply dom_alter_L.
    + intros l' [Hne Hl']%not_elem_of_cons. rewrite Hout by done.
      apply lookup_alter_ne. congruence.
    + intros l'. destruct (Hsame l') as [Ha Ht]. cbn [heap] in Ha, Ht.
      rewrite Ha, Ht. apply duties_alter_previous.
Qed.

(** [parallel_thinking] for an arbitrary schedule: the world it leaves and
    the slots it returns. *)
Lemma parallel_thinking_any completion_order ls w :
  parallel_thinking completion_order ls w =
  (logged w (PrintParallel :: start_events (heap w) ls
             ++ exec_events (heap w) ls (completion_order (length ls))),
   inr (omap id (fill (heap w) ls (replicate (length ls) None)
                      (completion_order (length ls))))).
Proof.
  unfold parallel_thinking. run. rewrite parallel_launch_run. run.
  cbn [app]. unfold gather. rewrite length_map. run.
  rewrite gather_run_executor. run. reflexivity.
Qed.

Lemma exec_events_nil h order : exec_events h [] order = [].
Proof. unfold exec_events. induction order as [|i order IH]; [done|]. done. Qed.

Lemma fill_nil h order : fill h [] [] order = [].
Proof. unfold fill. induction order as [|i order IH]; [done|]. done. Qed.

(** The sequential strategy returns one result per subtask, in the order of
    the list: the i-th result is the executor's result for the i-th
    subtask, also when a dict occurs in the list more than once. *)
Theorem sequential_thinking_one_result_each (subtasks : list loc) w :
  exists w' results,
    sequential_thinking subtasks w = (w', inr results)
    /\ length results = length subtasks
    /\ forall i, results !! i =
                 (fun l => agent_result (heap w !!! l)) <$> subtasks !! i.
Proof.
  destruct (sequential_thinking_run subtasks w) as [w' Hrun].
  exists w', (results_of (heap w) subtasks). split; [done|].
  split; [apply results_of_length|]. intros i. unfold results_of.
  change (map ?f subtasks) with (f <$> subtasks). apply list_lookup_fmap.
Qed.

(** No strategy touches the registry or the clock, removes what was
    printed, or changes the agent or the task of a subtask.  The parallel,
    hierarchical and mesh strategies leave every subtask dict as it was;
    the sequential one writes only to the dicts of its list. *)
Theorem strategies_leave_alone completion_order (subtasks : list loc) w :
  (exists es, fst (parallel_thinking completion_order subtasks w) = logged w es)
  /\ (exists es,
        fst (hierarchical_thinking completion_order subtasks w) = logged w es)
  /\ (exists es, fst (mesh_thinking subtasks w) = logged w es)
  /\ agents_registry (fst (sequential_thinking subtasks w)) = agents_registry w
  /\ now (fst (sequential_thinking subtasks w)) = now w
  /\ (exists es, trace (fst (sequential_thinking subtasks w)) = trace w ++ es)
  /\ dom (heap (fst (sequential_thinking subtasks w))) = dom (heap w)
  /\ (forall l, l ∉ subtasks ->
        heap (fst (sequential_thinking subtasks w)) !! l = heap w !! l)
  /\ same_duties w (fst (sequential_thinking subtasks w)).
Proof.
  split; [|split; [|split]].
  - rewrite parallel_thinking_any. by eexists.
  - destruct subtasks as [|l ls]; [by exists [PrintHierarchical]|].
    unfold hierarchical_thinking. run. rewrite parallel_thinking_any. run.
    by eexists.
  - rewrite mesh_thinking_run. by eexists.
  - unfold sequential_thinking. run.
    destruct (sequential_loop_frame subtasks [] (logged w [PrintSequential]))
      as (Hreg & Hnow & [es Htr] & Hdom & Hout & Hsame).
    split; [done|]. split; [done|]. split; [|done].
    exists (PrintSequential :: es). rewrite Htr. cbn. by rewrite <- app_assoc.
Qed.

(** On a list without subtasks the sequential, parallel and mesh strategies
    return no result and call no executor, under every schedule, while the
    hierarchical strategy raises [IndexError] on [subtasks[0]]. *)
Theorem strategies_without_subtasks completion_order w :
  sequential_thinking [] w = (logged w [PrintSequential], inr [])
  /\ parallel_thinking completion_order [] w
     = (logged w [PrintParallel], inr [])
  /\ mesh_thinking [] w = (logged w [PrintMesh], inr [])
  /\ hierarchical_thinking completion_order [] w
     = (logged w [PrintHierarchical], inl IndexError).
Proof.
  split; [done|]. split; [|split; [apply mesh_thinking_run | done]].
  rewrite parallel_thinking_any. cbn [length replicate start_events map app].
  by rewrite exec_events_nil, fill_nil.
Qed.

(** On a list with at least one subtask the four strategies return the same
    list of results. *)
Theorem strategies_same_results completion_order (subtasks : list loc) w :
  (forall n, completion_order n ≡ₚ seq 0 n) ->
  subtasks ≠ [] ->
  exists results,
    snd (sequential_thinking subtasks w) = inr results
    /\ snd (parallel_thinking completion_order subtasks w) = inr results
    /\ snd (hierarchical_thinking completion_order subtasks w) = inr results
    /\ snd (mesh_thinking subtasks w) = inr results
    /\ length results = length subtasks.
Proof.
  intros Hperm Hne. exists (results_of (heap w) subtasks).
  destruct (sequential_thinking_run subtasks w) as [w1 ->].
  rewrite parallel_thinking_run by apply Hperm.
  destruct (hierarchical_thinking_run completion_order subtasks w Hne (Hperm _))
    as [es ->].
  rewrite mesh_thinking_run. repeat split. apply results_of_length.
Qed.

Lemma strategies_same_results_three :
  (forall n, reverse_completion n ≡ₚ seq 0 n)
  /\ [0; 1; 2] ≠ []
  /\ exists results,
       snd (sequential_thinking [0; 1; 2] three_subtasks) = inr results
       /\ snd (parallel_thinking reverse_completion [0; 1; 2] three_subtasks)
          = inr results
       /\ snd (hierarchical_thinking reverse_completion [0; 1; 2] three_subtasks)
          = inr results
       /\ snd (mesh_thinking [0; 1; 2] three_subtasks) = inr results
       /\ length results = length [0; 1; 2].
Proof.
  split; [apply reverse_completion_perm|]. split; [discriminate|].
  apply (strategies_same_results reverse_completion [0; 1; 2] three_subtasks);
    [apply reverse_completion_perm | discriminate].
Defined.

(** ** The orchestration run, case by case *)

Lemma analyze_request_trend lower user_request w :
  names_trend_analysis lower user_request = true ->
  analyze_request lower user_request w = (w, inr (trend_analysis user_request)).
Proof.
  unfold names_trend_analysis, analyze_request. by intros ->.
Qed.

Lemma analyze_request_default lower user_request w :
  names_trend_analysis lower user_request = false ->
  analyze_request lower user_request w
  = (w, inr (default_analysis user_request)).
Proof.
  unfold names_trend_analysis, analyze_request. by intros ->.
Qed.

(** New dict objects: fresh references that hold the given dicts; the
    objects that were there stay as they were. *)
Lemma alloc_all_spec (ss : list Subtask.t) w :
  exists (h1 : gmap loc Subtask.t) (ls : list loc),
    alloc_all ss w =
      ({| heap := h1; agents_registry := agents_registry w;
          trace := trace w; now := now w |}, inr ls)
    /\ map (fun l => h1 !!! l) ls = ss
    /\ NoDup ls
    /\ (forall l, l ∈ ls -> l ∉ dom (heap w))
    /\ (forall l, l ∈ dom (heap w) -> h1 !! l = heap w !! l).
Proof.
  revert w. induction ss as [|s ss IH]; intros w.
  - exists (heap w), []. destruct w. cbn. repeat split; try done.
    + constructor.
    + intros l Hl. by apply not_elem_of_nil in Hl.
  - cbn [alloc_all]. rewrite bind_run. unfold alloc at 1. cbn beta iota zeta.
    set (l0 := fresh (dom (heap w))).
    assert (l0 ∉ dom (heap w)) as Hfresh by apply is_fresh.
    match goal with |- context [(alloc_all ss ≫= _) ?w0] =>
      destruct (IH w0) as (h1 & ls & Hrun & Hmap & Hnd & Hnew & Hold) end.
    cbn [heap agents_registry trace now] in *.
    rewrite bind_run, Hrun. cbn beta iota. rewrite ret_run.
    exists h1, (l0 :: ls). split; [done|].
    assert (h1 !! l0 = Some s) as Hl0.
    { rewrite Hold by (rewrite dom_insert_L; set_solver).
      apply lookup_insert_eq. }
    split; [|split; [|split]].
    + cbn [map]. by rewrite (lookup_total_correct _ _ _ Hl0), Hmap.
    + constructor; [|done]. intros Hin. apply (Hnew l0 Hin).
      rewrite dom_insert_L. set_solver.
    + intros l [->|Hl]%elem_of_cons; [done|].
      intros Hdom. apply (Hnew l Hl). rewrite dom_insert_L. set_solver.
    + intros l Hl. rewrite Hold by (rewrite dom_insert_L; set_solver).
      apply lookup_insert_ne. by intros <-.
Qed.

Lemma results_of_map h ls :
  results_of h ls = map agent_result (map (fun l => h !!! l) ls).
Proof. unfold results_of. by rewrite map_map. Qed.

Lemma synthesize_results_world results w :
  fst (synthesize_results results w) = logged w [PrintSynthesis].
Proof.
  destruct results as [|r results]; [done|].
  by rewrite synthesize_results_run.
Qed.

Lemma start_events_reached h ls :
  Forall (fun e => unreached_event e = false) (start_events h ls).
Proof. unfold start_events. induction ls; constructor; auto. Qed.

Lemma exec_events_reached h ls order :
  Forall (fun e => unreached_event e = false) (exec_events h ls order).
Proof.
  unfold exec_events. induction order as [|i order IH]; [constructor|].
  cbn [omap list_omap]. destruct (ls !! i); cbn; [constructor|]; auto.
Qed.

(** The run on a request that names both keywords. *)
Lemma execute_ultrathink_trend_run lower completion_order user_request w :
  names_trend_analysis lower user_request = true ->
  completion_order 3 ≡ₚ seq 0 3 ->
  exists (h1 : gmap loc Subtask.t) (ls : list loc),
    execute_ultrathink lower completion_order user_request w =
      ({| heap := h1; agents_registry := agents_registry w;
          trace := trace w
                   ++ [PrintStart user_request;
                       PrintAnalysis (lit "parallel") 3; PrintParallel]
                   ++ start_events h1 ls
                   ++ exec_events h1 ls (completion_order 3)
                   ++ [PrintSynthesis];
          now := now w |},
       inr {| out_request := user_request;
              out_analysis := trend_analysis user_request;
              out_results :=
                map agent_result (subtasks (trend_analysis user_request));
              out_synthesis :=
                full_confidence
                  (map agent_result (subtasks (trend_analysis user_request)));
              out_timestamp := now w |})
    /\ (forall l, l ∈ dom (heap w) -> h1 !! l = heap w !! l).
Proof.
  intros Hnames Hperm. unfold execute_ultrathink. run.
  rewrite (analyze_request_trend lower user_request _ Hnames). run.
  cbn [thinking_pattern trend_analysis required_agents subtasks length].
  rewrite thinking_patterns_parallel. cbn [default]. unfold id.
  match goal with |- context [alloc_all ?ss ?w0] =>
    destruct (alloc_all_spec ss w0) as (h1 & ls & -> & Hmap & _ & _ & Hold) end.
  cbn beta iota.
  assert (length ls = 3) as Hlen.
  { apply (f_equal length) in Hmap. by rewrite length_map in Hmap. }
  rewrite bind_run.
  rewrite parallel_thinking_run by (cbn [heap]; by rewrite Hlen).
  run. cbn [heap]. rewrite Hlen.
  rewrite synthesize_results_of by (by destruct ls). run.
  cbn [heap logged]. rewrite results_of_map, Hmap.
  exists h1, ls. split; [|exact Hold].
  unfold logged. cbn [heap agents_registry trace now].
  rewrite <- !app_assoc. cbn [app]. rewrite <- !app_assoc. reflexivity.
Qed.

(** The world a run leaves, for every request and every schedule. *)
Lemma execute_ultrathink_world lower completion_order user_request w :
  exists (h1 : gmap loc Subtask.t) (es : list event),
    fst (execute_ultrathink lower completion_order user_request w) =
      {| heap := h1; agents_registry := agents_registry w;
         trace := trace w ++ es; now := now w |}
    /\ Forall (fun e => unreached_event e = false) es
    /\ (forall l, l ∈ dom (heap w) -> h1 !! l = heap w !! l).
Proof.
  destruct (names_trend_analysis lower user_request) eqn:Hnames.
  - unfold execute_ultrathink. run.
    rewrite (analyze_request_trend lower user_request _ Hnames). run.
    cbn [thinking_pattern trend_analysis required_agents subtasks length].
    rewrite thinking_patterns_parallel. cbn [default]. unfold id.
    match goal with |- context [alloc_all ?ss ?w0] =>
      destruct (alloc_all_spec ss w0) as (h1 & ls & -> & _ & _ & _ & Hold) end.
    cbn beta iota. rewrite bind_run, parallel_thinking_any. cbn beta iota.
    rewrite bind_run.
    match goal with |- context [synthesize_results ?rs ?w2] =>
      pose proof (synthesize_results_world rs w2) as Hw;
      destruct (synthesize_results rs w2) as [w3 [e|syn]] end;
      cbn [fst] in Hw; subst w3; run; cbn [fst].
    all: exists h1,
           (([PrintStart user_request] ++ [PrintAnalysis (lit "parallel") 3])
            ++ (PrintParallel :: start_events h1 ls
                ++ exec_events h1 ls (completion_order (length ls)))
            ++ [PrintSynthesis]).
    all: unfold logged; cbn [heap agents_registry trace now].
    all: split; [by rewrite <- app_assoc|]; split; [|exact Hold].
    all: repeat (apply Forall_app; split); repeat constructor.
    all: apply Forall_app; split;
      [apply start_events_reached | apply exec_events_reached].
  - rewrite execute_ultrathink_empty
      by (intros w0; by apply analyze_request_default).
    exists (heap w). eexists. split; [reflexivity|].
    split; [by repeat constructor | done].
Qed.

(** A run of [execute_ultrathink] on a request that names both keywords
    returns the outcome below: the analysis with its three subtasks as they
    were built, one result per subtask in their order, confidence 1 with the
    recommendation to proceed, and the time of the clock. *)
Theorem execute_ultrathink_trend_outcome lower completion_order
    (user_request : str) w :
  names_trend_analysis lower user_request = true ->
  completion_order 3 ≡ₚ seq 0 3 ->
  snd (execute_ultrathink lower completion_order user_request w) =
  inr {| out_request := user_request;
         out_analysis := trend_analysis user_request;
         out_results :=
           [agent_result (Subtask.make (lit "TrendingAgent") task_trending);
            agent_result (Subtask.make (lit "AnalyzerAgent") task_analyzer);
            agent_result (Subtask.make (lit "SynthesisAgent") task_synthesis)];
         out_synthesis :=
           full_confidence
             [agent_result (Subtask.make (lit "TrendingAgent") task_trending);
              agent_result (Subtask.make (lit "AnalyzerAgent") task_analyzer);
              agent_result
                (Subtask.make (lit "SynthesisAgent") task_synthesis)];
         out_timestamp := now w |}.
Proof.
  intros Hnames Hperm.
  destruct (execute_ultrathink_trend_run lower completion_order user_request w
              Hnames Hperm) as (h1 & ls & -> & _).
  reflexivity.
Qed.

Lemma execute_ultrathink_trend_outcome_main :
  names_trend_analysis lower_latin1 main_request = true
  /\ reverse_completion 3 ≡ₚ seq 0 3
  /\ snd (execute_ultrathink lower_latin1 reverse_completion main_request
            empty_world) =
     inr {| out_request := main_request;
            out_analysis := trend_analysis main_request;
            out_results :=
              [agent_result (Subtask.make (lit "TrendingAgent") task_trending);
               agent_result (Subtask.make (lit "AnalyzerAgent") task_analyzer);
               agent_result
                 (Subtask.make (lit "SynthesisAgent") task_synthesis)];
            out_synthesis :=
              full_confidence
                [agent_result (Subtask.make (lit "TrendingAgent") task_trending);
                 agent_result (Subtask.make (lit "AnalyzerAgent") task_analyzer);
                 agent_result
                   (Subtask.make (lit "SynthesisAgent") task_synthesis)];
            out_timestamp := now empty_world |}.
Proof.
  split; [reflexivity|]. split; [apply reverse_completion_perm|].
  apply (execute_ultrathink_trend_outcome lower_latin1 reverse_completion
           main_request empty_world);
    [reflexivity | apply reverse_completion_perm].
Defined.

Lemma execute_ultrathink_ignores_state_any lower completion_order
    (user_request : str) w1 w2 :
  completion_order 3 ≡ₚ seq 0 3 ->
  now w1 = now w2 ->
  snd (execute_ultrathink lower completion_order user_request w1)
  = snd (execute_ultrathink lower completion_order user_request w2).
Proof.
  intros Hperm Hnow.
  destruct (names_trend_analysis lower user_request) eqn:Hnames.
  - destruct (execute_ultrathink_trend_run lower completion_order user_request
                w1 Hnames Hperm) as (h1 & ls1 & -> & _).
    destruct (execute_ultrathink_trend_run lower completion_order user_request
                w2 Hnames Hperm) as (h2 & ls2 & -> & _).
    cbn [snd]. by rewrite Hnow.
  - rewrite !execute_ultrathink_empty
      by (intros w0; by apply analyze_request_default).
    reflexivity.
Qed.

(** What a run of [execute_ultrathink] returns or raises depends on the
    request and the clock only: not on the registered agents, on the subtask
    objects that exist, or on what was printed before. *)
Theorem execute_ultrathink_ignores_state lower completion_order
    (user_request : str) w1 w2 :
  completion_order 3 ≡ₚ seq 0 3 ->
  now w1 = now w2 ->
  snd (execute_ultrathink lower completion_order user_request w1)
  = snd (execute_ultrathink lower completion_order user_request w2).
Proof.
  intros Hperm Hnow. by apply execute_ultrathink_ignores_state_any.
Qed.

Lemma execute_ultrathink_ignores_state_three_subtasks :
  reverse_completion 3 ≡ₚ seq 0 3
  /\ now empty_world = now three_subtasks
  /\ snd (execute_ultrathink lower_latin1 reverse_completion main_request
            empty_world)
     = snd (execute_ultrathink lower_latin1 reverse_completion main_request
              three_subtasks).
Proof.
  split; [apply reverse_completion_perm|]. split; [reflexivity|].
  apply (execute_ultrathink_ignores_state lower_latin1 reverse_completion
           main_request empty_world three_subtasks);
    [apply reverse_completion_perm | reflexivity].
Defined.

(** A run of [execute_ultrathink] leaves the registry and the clock as they
    were, keeps every subtask object that existed unchanged, and only adds
    to what was printed; this holds for every request and schedule, also
    when the run raises. *)
Theorem execute_ultrathink_leaves_alone lower completion_order
    (user_request : str) w :
  agents_registry (fst (execute_ultrathink lower completion_order
                          user_request w)) = agents_registry w
  /\ now (fst (execute_ultrathink lower completion_order user_request w))
     = now w
  /\ (exists es,
        trace (fst (execute_ultrathink lower completion_order user_request w))
        = trace w ++ es)
  /\ (forall l, l ∈ dom (heap w) ->
        heap (fst (execute_ultrathink lower completion_order user_request w))
          !! l = heap w !! l).
Proof.
  destruct (execute_ultrathink_world lower completion_order user_request w)
    as (h1 & es & -> & _ & Hold).
  cbn. split; [done|]. split; [done|]. split; [by exists es | exact Hold].
Qed.

(** No run of [execute_ultrathink] makes a pass of the sequential loop or
    enters the hierarchical or the mesh strategy: the analyser selects the
    parallel pattern or hands the sequential one an empty list. *)
Theorem execute_ultrathink_unreached_strategies lower completion_order
    (user_request : str) w :
  exists es,
    trace (fst (execute_ultrathink lower completion_order user_request w))
      = trace w ++ es
    /\ Forall (fun e => unreached_event e = false) es.
Proof.
  destruct (execute_ultrathink_world lower completion_order user_request w)
    as (h1 & es & -> & Hes & _).
  by exists es.
Qed.

(** ** The agent registry *)

Lemma register_agent_run agent_card w :
  register_agent agent_card w =
  ({| heap := heap w;
      agents_registry := <[name agent_card := agent_card]> (agents_registry w);
      trace := trace w ++ [PrintRegistered (name agent_card)];
      now := now w |}, inr tt).
Proof. reflexivity. Qed.

Lemma register_all_run (agent_cards : list AgentCard) w :
  register_all agent_cards w =
  ({| heap := heap w;
      agents_registry :=
        foldl (fun r c => <[name c := c]> r) (agents_registry w) agent_cards;
      trace := trace w ++ map (fun c => PrintRegistered (name c)) agent_cards;
      now := now w |}, inr tt).
Proof.
  revert w. induction agent_cards as [|c cards IH]; intros w.
  - destruct w. cbn. by rewrite app_nil_r.
  - cbn [register_all]. rewrite bind_run, register_agent_run. cbn beta iota.
    rewrite IH. cbn [heap agents_registry trace now foldl map].
    by rewrite <- app_assoc.
Qed.

Lemma registry_fold_lookup (cards : list AgentCard)
    (r : gmap str AgentCard) (n : str) :
  foldl (fun r c => <[name c := c]> r) r cards !! n =
  match last_named n cards with
  | Some c => Some c
  | None => r !! n
  end.
Proof.
  revert r. induction cards as [|c cards IH]; intros r; [done|].
  cbn [foldl]. rewrite IH. unfold last_named. rewrite filter_cons.
  destruct (decide (name c = n)) as [Hn|Hn].
  - rewrite last_cons.
    destruct (last (filter (fun c0 => name c0 = n) cards)); [done|].
    rewrite <- Hn. apply lookup_insert_eq.
  - destruct (last (filter (fun c0 => name c0 = n) cards)); [done|].
    by apply lookup_insert_ne.
Qed.

(** After a sequence of registrations the registry answers a name with the
    last card registered under it, and with what it held before for a name
    that none of the cards carries; the subtask objects and the clock are
    untouched and one line per card is printed. *)
Theorem register_all_lookup (agent_cards : list AgentCard) w (n : str) :
  exists w',
    register_all agent_cards w = (w', inr tt)
    /\ agents_registry w' !! n =
       match last_named n agent_cards with
       | Some c => Some c
       | None => agents_registry w !! n
       end
    /\ heap w' = heap w
    /\ now w' = now w
    /\ trace w' = trace w ++ map (fun c => PrintRegistered (name c)) agent_cards.
Proof.
  eexists. split; [apply register_all_run|]. cbn.
  split; [apply registry_fold_lookup | done].
Qed.

(** ** The analyser: keywords and invariants *)

Lemma startswith_spec (p s : str) :
  startswith p s = true <-> exists b, s = p ++ b.
Proof.
  revert s. induction p as [|a p IH]; intros s.
  - cbn. split; [by exists s | done].
  - destruct s as [|c s]; cbn.
    + split; [done | by intros [b Hb]].
    + rewrite andb_true_iff, N.eqb_eq, IH. split.
      * intros [-> [b ->]]. by exists b.
      * intros [b Hb]. injection Hb as -> ->. split; [done | by exists b].
Qed.

(** [p in s] holds exactly when [s] is some text, [p], and some text. *)
Lemma contains_spec (p s : str) :
  contains p s = true <-> exists a b, s = a ++ p ++ b.
Proof.
  induction s as [|c s IH].
  - cbn. rewrite orb_false_r, startswith_spec. split.
    + intros [b Hb]. by exists [], b.
    + intros (a & b & Hab). destruct a as [|x a]; [by exists b | done].
  - cbn [contains]. rewrite orb_true_iff, startswith_spec, IH. split.
    + intros [[b ->]|(a & b & ->)]; [by exists [], b | by exists (c :: a), b].
    + intros (a & b & Hab). destruct a as [|x a].
      * left. by exists b.
      * right. injection Hab as -> ->. by exists a, b.
Qed.

Lemma names_trend_analysis_spec lower (user_request : str) :
  names_trend_analysis lower user_request = true <->
  (exists a b, lower user_request = a ++ kw_analise ++ b)
  /\ (exists a b, lower user_request = a ++ kw_tendencias ++ b).
Proof.
  unfold names_trend_analysis.
  by rewrite andb_true_iff, !contains_spec.
Qed.

(** The analyser answers with the parallel pattern and its three subtasks
    exactly when the lower-cased request holds both keywords somewhere, in
    any order; every other request gets the sequential pattern and no
    subtask. *)
Theorem analyze_request_keywords lower (user_request : str) w :
  exists analysis,
    analyze_request lower user_request w = (w, inr analysis)
    /\ (((exists a b, lower user_request = a ++ kw_analise ++ b)
         /\ (exists a b, lower user_request = a ++ kw_tendencias ++ b)
         /\ analysis = trend_analysis user_request)
        \/ (~ ((exists a b, lower user_request = a ++ kw_analise ++ b)
               /\ (exists a b, lower user_request = a ++ kw_tendencias ++ b))
            /\ analysis = default_analysis user_request)).
Proof.
  destruct (names_trend_analysis lower user_request) eqn:Hnames.
  - exists (trend_analysis user_request).
    split; [by apply analyze_request_trend|]. left.
    apply names_trend_analysis_spec in Hnames as [H1 H2]. done.
  - exists (default_analysis user_request).
    split; [by apply analyze_request_default|]. right. split; [|done].
    rewrite <- names_trend_analysis_spec. by rewrite Hnames.
Qed.

(** Every analysis is consistent: it carries the request unchanged, lists
    as required agents the agents of its subtasks in their order, names a
    pattern of the dispatch table, has no subtask exactly when the pattern
    is the sequential one, and no subtask comes with a previous result. *)
Theorem analyze_request_consistent lower completion_order
    (user_request : str) w :
  exists analysis,
    analyze_request lower user_request w = (w, inr analysis)
    /\ request analysis = user_request
    /\ required_agents analysis = map Subtask.agent (subtasks analysis)
    /\ is_Some (thinking_patterns completion_order
                  !! thinking_pattern analysis)
    /\ (subtasks analysis = [] <-> thinking_pattern analysis = lit "sequential")
    /\ Forall (fun s => Subtask.previous_result s = None) (subtasks analysis).
Proof.
  destruct (analyze_request_run lower user_request) as (a & Hrun & [-> | ->]).
  - exists (default_analysis user_request). split; [done|].
    cbn [request required_agents subtasks thinking_pattern default_analysis].
    split; [done|]. split; [done|].
    split; [by rewrite thinking_patterns_sequential|]. by split.
  - exists (trend_analysis user_request). split; [done|].
    cbn [request required_agents subtasks thinking_pattern trend_analysis].
    split; [done|]. split; [done|].
    split; [by rewrite thinking_patterns_parallel|].
    split; [by split | by repeat constructor].
Qed.

(** [execute_ultrathink] returns an outcome exactly for the requests whose
    lower-cased text holds both keywords; on every other request it raises
    [ZeroDivisionError]. *)
Theorem execute_ultrathink_returns_iff lower completion_order
    (user_request : str) w :
  completion_order 3 ≡ₚ seq 0 3 ->
  (is_Some (returned (execute_ultrathink lower completion_order user_request w))
   <-> (exists a b, lower user_request = a ++ kw_analise ++ b)
       /\ (exists a b, lower user_request = a ++ kw_tendencias ++ b))
  /\ (returned (execute_ultrathink lower completion_order user_request w) = None
      -> snd (execute_ultrathink lower completion_order user_request w)
         = inl ZeroDivisionError).
Proof.
  intros Hperm. rewrite <- names_trend_analysis_spec.
  destruct (names_trend_analysis lower user_request) eqn:Hnames.
  - destruct (execute_ultrathink_trend_run lower completion_order user_request
                w Hnames Hperm) as (h1 & ls & -> & _).
    unfold returned. cbn. split; [by split | done].
  - rewrite execute_ultrathink_empty
      by (intros w0; by apply analyze_request_default).
    unfold returned. cbn. split; [|done].
    split; [by intros [? ?] | done].
Qed.

Lemma execute_ultrathink_returns_iff_say_hello :
  reverse_completion 3 ≡ₚ seq 0 3
  /\ returned (execute_ultrathink lower_latin1 reverse_completion
                 (lit "Say hello") empty_world) = None
  /\ snd (execute_ultrathink lower_latin1 reverse_completion
            (lit "Say hello") empty_world) = inl ZeroDivisionError.
Proof.
  split; [apply reverse_completion_perm|]. split; [reflexivity|].
  apply (execute_ultrathink_returns_iff lower_latin1 reverse_completion
           (lit "Say hello") empty_world (reverse_completion_perm 3)).
  reflexivity.
Defined.

(** ** Complexity *)

(** The complexity score lies between 1 and 10 and never decreases when
    the request has more words. *)
Theorem complexity_monotone (request1 request2 : str) :
  length (split request1) <= length (split request2) ->
  1 <= _calculate_complexity request1 <= 10
  /\ _calculate_complexity request1 <= _calculate_complexity request2.
Proof.
  intros Hle. unfold _calculate_complexity.
  repeat case_match; rewrite ?Nat.ltb_lt, ?Nat.ltb_ge in *; lia.
Qed.

Lemma complexity_monotone_say_hello_main :
  length (split (lit "Say hello")) <= length (split main_request)
  /\ 1 <= _calculate_complexity (lit "Say hello") <= 10
  /\ _calculate_complexity (lit "Say hello")
     <= _calculate_complexity main_request.
Proof.
  assert (length (split (lit "Say hello")) <= length (split main_request))
    as Hle by (vm_compute; lia).
  split; [exact Hle|].
  exact (complexity_monotone (lit "Say hello") main_request Hle).
Defined.

Lemma split_from_leading (pre s : str) :
  Forall (fun c => isspace c = true) pre ->
  split_from [] (pre ++ s) = split_from [] s.
Proof.
  induction 1 as [|c pre Hc _ IH]; [done|].
  cbn [app split_from]. by rewrite Hc.
Qed.

Lemma split_from_spaces (cur post : str) :
  Forall (fun c => isspace c = true) post ->
  split_from cur post = match cur with [] => [] | _ => [rev cur] end.
Proof.
  intros Hpost. revert cur.
  induction Hpost as [|c post Hc _ IH]; intros cur; [done|].
  cbn [split_from]. rewrite Hc, (IH []). by destruct cur.
Qed.

Lemma split_from_trailing (cur s post : str) :
  Forall (fun c => isspace c = true) post ->
  split_from cur (s ++ post) = split_from cur s.
Proof.
  intros Hpost. revert cur. induction s as [|c s IH]; intros cur.
  - cbn [app]. by rewrite split_from_spaces.
  - cbn [app split_from]. rewrite !IH. done.
Qed.

(** White space around a request changes neither its words nor its
    complexity; in particular a request of white space alone has no words. *)
Theorem complexity_ignores_padding (pre request post : str) :
  Forall (fun c => isspace c = true) pre ->
  Forall (fun c => isspace c = true) post ->
  split (pre ++ request ++ post) = split request
  /\ _calculate_complexity (pre ++ request ++ post)
     = _calculate_complexity request
  /\ split (pre ++ post) = [].
Proof.
  intros Hpre Hpost.
  assert (split (pre ++ request ++ post) = split request) as Hsplit.
  { unfold split. by rewrite split_from_leading, split_from_trailing. }
  split; [done|]. split.
  - unfold _calculate_complexity. by rewrite Hsplit.
  - unfold split. rewrite split_from_leading by done.
    by rewrite split_from_spaces.
Qed.

Lemma complexity_ignores_padding_say_hello :
  Forall (fun c => isspace c = true) [32%N; 9%N]
  /\ Forall (fun c => isspace c = true) [10%N]
  /\ split ([32%N; 9%N] ++ lit "Say hello" ++ [10%N]) = split (lit "Say hello")
  /\ _calculate_complexity ([32%N; 9%N] ++ lit "Say hello" ++ [10%N])
     = _calculate_complexity (lit "Say hello")
  /\ split ([32%N; 9%N] ++ [10%N]) = [].
Proof.
  assert (Forall (fun c => isspace c = true) [32%N; 9%N]) as Hpre
    by (repeat constructor).
  assert (Forall (fun c => isspace c = true) [10%N]) as Hpost
    by (repeat constructor).
  split; [exact Hpre|]. split; [exact Hpost|].
  exact (complexity_ignores_padding [32%N; 9%N] (lit "Say hello") [10%N]
           Hpre Hpost).
Defined.

(** ** The synthesiser: the threshold in counts *)

Lemma ratio_zero k n : n ≠ 0 -> ratio k n = 0%Q <-> k = 0.
Proof.
  intros Hn. unfold ratio. split.
  - intros Heq. assert (Z.of_nat k # Pos.of_nat n == 0)%Q as Hq
      by (by rewrite <- (Qred_correct (_ # _)), Heq).
    unfold Qeq in Hq. cbn [Qnum Qden] in Hq. lia.
  - intros ->. change 0%Q with (Qred 0). by apply Qred_complete.
Qed.

Lemma ratio_one k n : n ≠ 0 -> ratio k n = 1%Q <-> k = n.
Proof.
  intros Hn. split; [|intros ->; by apply ratio_all].
  unfold ratio. intros Heq.
  assert (Z.of_nat k # Pos.of_nat n == 1)%Q as Hq
    by (by rewrite <- (Qred_correct (_ # _)), Heq).
  unfold Qeq in Hq. cbn [Qnum Qden] in Hq.
  rewrite (Zpos_of_nat n) in Hq by done. lia.
Qed.

(** The synthesiser raises [ZeroDivisionError] on the empty list and on no
    other.  On a non-empty list it recommends to proceed exactly when more
    than four fifths of the results are completed; its score is 0 exactly
    when no result is completed and 1 exactly when all are; and it reports
    one insight per result, completed or not. *)
Theorem synthesize_results_threshold (results : list Result.t) w :
  results ≠ [] ->
  exists synthesis,
    synthesize_results results w = (logged w [PrintSynthesis], inr synthesis)
    /\ (recommendations synthesis = [recommend_proceed]
        <-> 4 * length results < 5 * successful results)
    /\ (confidence_score synthesis = 0%Q <-> successful results = 0)
    /\ (confidence_score synthesis = 1%Q
        <-> successful results = length results)
    /\ length (key_insights synthesis) = length results.
Proof.
  intros Hne. eexists. split; [by apply synthesize_results_run|].
  cbn [recommendations confidence_score key_insights].
  assert (length results ≠ 0) as Hlen by (by destruct results).
  split; [|split; [by apply ratio_zero|split; [by apply ratio_one|]]].
  - rewrite <- (ratio_above_threshold _ _ Hlen).
    destruct (recommend_cases (ratio (successful results) (length results)))
      as [[Hlt ->]|[Hle ->]]; [done|].
    split.
    + intros Heq. injection Heq as Heq. by destruct recommendations_differ.
    + intros Hlt. by apply Qlt_not_le in Hlt.
  - unfold insights_of. apply length_map.
Qed.

Lemma synthesize_results_threshold_two_of_three :
  [agent_result trending; failed_result; agent_result synthesizer] ≠ []
  /\ exists synthesis,
       synthesize_results
         [agent_result trending; failed_result; agent_result synthesizer]
         empty_world = (logged empty_world [PrintSynthesis], inr synthesis)
       /\ recommendations synthesis ≠ [recommend_proceed]
       /\ length (key_insights synthesis) = 3.
Proof.
  split; [discriminate|].
  destruct (synthesize_results_threshold
              [agent_result trending; failed_result; agent_result synthesizer]
              empty_world) as (synthesis & Hrun & Hrec & _ & _ & Hlen);
    [discriminate|].
  exists synthesis. split; [exact Hrun|]. split; [|exact Hlen].
  intros Heq. apply Hrec in Heq. vm_compute in Heq. lia.
Defined.

(** The synthesiser raises exactly on the empty list of results. *)
Theorem synthesize_results_raises_iff_empty (results : list Result.t) w :
  snd (synthesize_results results w) = inl ZeroDivisionError <-> results = [].
Proof.
  split.
  - intros Hraise. destruct results as [|r results]; [done|].
    by rewrite synthesize_results_run in Hraise.
  - by intros ->.
Qed.

(** ** Agent cards *)

Lemma replace_char_absent (old new : char) (s : str) :
  old ≠ new -> old ∉ replace_char old new s.
Proof.
  intros Hne Hin. unfold replace_char in Hin.
  apply list_elem_of_In, in_map_iff in Hin as (c & Hc & _).
  destruct (c =? old)%N eqn:Heq; [congruence|].
  apply N.eqb_neq in Heq. congruence.
Qed.

(** The card of an agent lists one skill entry per skill, in the order of
    the skills and under their names, so the skills can be read back from
    the card; no skill id holds a space, and each id is as long as the
    lower-cased skill. *)
Theorem create_agent_card_skills lower (name description : str)
    (skills : list str) :
  map Agent.skill_name
      (Agent.card_skills
         (Agent.agent_card (Agent.__init__ lower name description skills)))
  = skills
  /\ Agent.card_name
       (Agent.agent_card (Agent.__init__ lower name description skills))
     = name
  /\ Forall (fun entry => (32%N ∉ Agent.id entry)
                          /\ length (Agent.id entry)
                             = length (lower (Agent.skill_name entry)))
       (Agent.card_skills
          (Agent.agent_card (Agent.__init__ lower name description skills))).
Proof.
  unfold Agent.__init__, Agent._create_agent_card.
  cbn [Agent.agent_card Agent.card_skills Agent.card_name].
  split; [|split; [done|]].
  - rewrite map_map. cbn [Agent.skill_name]. apply map_id.
  - apply Forall_forall. intros entry Hin.
    apply list_elem_of_In, in_map_iff in Hin as (skill & <- & _).
    cbn [Agent.id Agent.skill_name]. split.
    + by apply replace_char_absent.
    + unfold replace_char. apply length_map.
Qed.

(** ** The mesh among subtasks of one agent *)

Lemma filter_other_agents_nil (h : gmap loc Subtask.t) (ls : list loc)
    (a : str) :
  (forall l, l ∈ ls -> Subtask.agent (h !!! l) = a) ->
  filter (fun r => Result.agent r ≠ a) (results_of h ls) = [].
Proof.
  induction ls as [|l ls IH]; intros Hall; [done|].
  unfold results_of in *. cbn [map]. rewrite filter_cons_False.
  - apply IH. intros l' Hl'. by apply Hall, list_elem_of_further.
  - rewrite agent_result_agent. intros Hne. apply Hne, Hall.
    apply list_elem_of_here.
Qed.

(** When every subtask of a mesh run belongs to the same agent there is one
    queue and it stays empty: nothing is shared. *)
Theorem mesh_thinking_single_agent (subtasks : list loc) w (a : str) :
  subtasks ≠ [] ->
  (forall l, l ∈ subtasks -> Subtask.agent (heap w !!! l) = a) ->
  exists w',
    mesh_run subtasks w
    = (w', inr (results_of (heap w) subtasks, {[a := []]})).
Proof.
  intros Hne Hall. rewrite mesh_run_run. eexists. do 3 f_equal.
  apply map_eq. intros a'.
  rewrite mesh_shares_lookup, mesh_channels_lookup.
  assert (forall a', a' ∈ agents_of (heap w) subtasks <-> a' = a) as Hagents.
  { intros a0. unfold agents_of. rewrite list_elem_of_In, in_map_iff. split.
    - intros (l & <- & Hl). apply Hall. by apply list_elem_of_In.
    - intros ->. destruct subtasks as [|l ls]; [done|].
      exists l. split; [apply Hall; apply list_elem_of_here | by left]. }
  destruct (decide (a' ∈ agents_of (heap w) subtasks)) as [Hin|Hin].
  - apply Hagents in Hin as ->. rewrite lookup_singleton_eq.
    cbn [fmap option_fmap option_map app].
    by rewrite filter_other_agents_nil.
  - rewrite lookup_empty. cbn. rewrite lookup_singleton_ne; [done|].
    intros <-. by apply Hin, Hagents.
Qed.

Lemma mesh_thinking_single_agent_shared :
  [0; 1] ≠ []
  /\ (forall l, l ∈ [0; 1] ->
        Subtask.agent (heap shared_agent !!! l) = lit "TrendingAgent")
  /\ exists w',
       mesh_run [0; 1] shared_agent
       = (w', inr (results_of (heap shared_agent) [0; 1],
                   {[lit "TrendingAgent" := []]})).
Proof.
  assert (forall l, l ∈ [0; 1] ->
            Subtask.agent (heap shared_agent !!! l) = lit "TrendingAgent")
    as Hall.
  { intros l [->|[->|Hl]%elem_of_cons]%elem_of_cons; [reflexivity..|].
    by apply not_elem_of_nil in Hl. }
  split; [discriminate|]. split; [exact Hall|].
  apply (mesh_thinking_single_agent [0; 1] shared_agent (lit "TrendingAgent"));
    [discriminate | exact Hall].
Defined.

(** ** Registration and runs *)

(** Registering agents before a run changes nothing of what the run returns
    or raises: the agents named by the subtasks need not be registered. *)
Theorem registration_does_not_affect_runs lower completion_order
    (agent_cards : list AgentCard) (user_request : str) w :
  completion_order 3 ≡ₚ seq 0 3 ->
  snd ((register_all agent_cards;;
        execute_ultrathink lower completion_order user_request) w)
  = snd (execute_ultrathink lower completion_order user_request w).
Proof.
  intros Hperm. rewrite bind_run, register_all_run. cbn beta iota.
  by apply execute_ultrathink_ignores_state_any.
Qed.

Lemma registration_does_not_affect_runs_main :
  reverse_completion 3 ≡ₚ seq 0 3
  /\ snd ((register_all
             [{| name := lit "TrendingAgent";
                 description := lit "Especialista em identificar tend"
                                ++ [234%N] ++ lit "ncias";
                 skills := [lit "web scraping"; lit "social media"] |}];;
           execute_ultrathink lower_latin1 reverse_completion main_request)
          empty_world)
     = snd (execute_ultrathink lower_latin1 reverse_completion main_request
              empty_world).
Proof.
  split; [apply reverse_completion_perm|].
  apply (registration_does_not_affect_runs lower_latin1 reverse_completion
           [{| name := lit "TrendingAgent";
               description := lit "Especialista em identificar tend"
                              ++ [234%N] ++ lit "ncias";
               skills := [lit "web scraping"; lit "social media"] |}]
           main_request empty_world).
  apply reverse_completion_perm.
Defined.
